(** * Closed-loop intent verification: a shallow embedding of
      [working_llm_system.py]

    The development has three parts.  Part I embeds the program: the Python
    string operations it relies on, the test bed it talks to (the Groq
    completion endpoint and the Mininet hosts), the functions
    [generate_network_command], [test_connectivity], [process_intent], the
    test loop and the summary computed by [main], and the request and the
    cleaning step of [topology_llm_test.py].  Part II states and proves the
    properties of the closed loop.  Part III proves further properties: the
    key check, the calls a run makes, the batch of [main], the two ends of
    the success rate, and [topology_llm_test.py].

    Conventions.
    - A Python [str] is a Rocq [string]; the characters are the code points
      0..255 (ASCII and Latin-1), on which [isspace] and [lower] below agree
      with CPython.
    - A Python [int] is a [Z]; a Python [float] is a binary64 [spec_float].
    - [None] is [None]; a value that may be [None] is an [option].
    - Calls that leave the process (the completion request, a command run in
      a host's shell) are answered by oracles that see the whole history of
      earlier calls, and every call is appended to that history.  Printing
      and [time.sleep] have no effect on what the functions return and are
      left out.
    - [net.get(name)] is taken to resolve: [main] creates [h1], [h2], [h3]
      and passes only these names; and a command run on a host hands back
      its output.  Module [Raising] embeds [test_connectivity] without
      these two conventions, with the exceptions its calls can raise. *)

From Stdlib Require Import String Ascii List ZArith NArith Bool Lia.
From Stdlib Require Import DecimalString SpecFloat.
Import ListNotations.

Open Scope string_scope.
Open Scope Z_scope.

(* ================================================================== *)
(** * Part I.  The embedding                                            *)
(* ================================================================== *)

(** ** Python string operations *)

Module PyStr.

Definition nl : ascii := "010"%char.
Definition dquote : ascii := "034"%char.
Definition squote : ascii := "039"%char.
Definition backtick : ascii := "096"%char.

(** [sub in s] *)
Fixpoint contains (sub s : string) : bool :=
  prefix sub s ||
  match s with
  | EmptyString => false
  | String _ s' => contains sub s'
  end.

(** [c.isspace()] for a code point below 256: TAB..CR, FS..US, SPACE,
    NEL (0x85) and NBSP (0xA0). *)
Definition isspace (c : ascii) : bool :=
  let n := N_of_ascii c in
  ((9 <=? n) && (n <=? 13) || (28 <=? n) && (n <=? 32)
   || (n =? 133) || (n =? 160))%N.

Fixpoint lstrip (s : string) : string :=
  match s with
  | EmptyString => EmptyString
  | String c s' => if isspace c then lstrip s' else s
  end.

Fixpoint rstrip (s : string) : string :=
  match s with
  | EmptyString => EmptyString
  | String c s' =>
      match rstrip s' with
      | EmptyString => if isspace c then EmptyString else String c EmptyString
      | r => String c r
      end
  end.

(** [s.strip()] *)
Definition strip (s : string) : string := rstrip (lstrip s).

(** [c.lower()] for a code point below 256: A..Z and the Latin-1 capitals
    0xC0..0xDE other than the multiplication sign 0xD7 move up by 32. *)
Definition lower_char (c : ascii) : ascii :=
  let n := N_of_ascii c in
  if ((65 <=? n) && (n <=? 90)
      || (192 <=? n) && (n <=? 222) && negb (n =? 215))%N
  then ascii_of_N (n + 32) else c.

(** [s.lower()] *)
Fixpoint lower (s : string) : string :=
  match s with
  | EmptyString => EmptyString
  | String c s' => String (lower_char c) (lower s')
  end.

(** [new.join(list(s))] with [new] also put in front and behind: what
    [s.replace("", new)] returns. *)
Fixpoint interleave (new s : string) : string :=
  match s with
  | EmptyString => new
  | String c s' => new ++ String c (interleave new s')
  end.

(** Left-to-right scan of [s.replace(old, new)] for a non-empty [old];
    [skip] counts the characters of the current match still to be
    dropped. *)
Fixpoint replace_scan (old new s : string) (skip : nat) : string :=
  match s with
  | EmptyString => EmptyString
  | String c s' =>
      match skip with
      | S k => replace_scan old new s' k
      | O =>
          if prefix old s
          then new ++ replace_scan old new s' (String.length old - 1)
          else String c (replace_scan old new s' 0)
      end
  end.

(** [s.replace(old, new)]: every non-overlapping occurrence, leftmost
    first. *)
Definition replace (old new s : string) : string :=
  match old with
  | EmptyString => interleave new s
  | _ => replace_scan old new s 0
  end.

(** Left-to-right scan of [s.split(sep)]: the part up to the next
    separator and the parts after it. *)
Fixpoint split_scan (sep s : string) (skip : nat) : string * list string :=
  match s with
  | EmptyString => (EmptyString, [])
  | String c s' =>
      match skip with
      | S k => split_scan sep s' k
      | O =>
          if prefix sep s
          then let '(p, ps) := split_scan sep s' (String.length sep - 1) in
               (EmptyString, p :: ps)
          else let '(p, ps) := split_scan sep s' 0 in
               (String c p, ps)
      end
  end.

(** [s.split(sep)] for a non-empty [sep] (the program splits on a
    literal; an empty separator raises [ValueError] in Python). *)
Definition split (sep s : string) : list string :=
  let '(p, ps) := split_scan sep s 0 in p :: ps.

(** [str(n)] for an [int] *)
Definition str (n : Z) : string := NilZero.string_of_int (Z.to_int n).

(** Truth value of a [str] or [None]: [None] and [""] are false. *)
Definition truthy (o : option string) : bool :=
  match o with
  | Some (String _ _) => true
  | _ => false
  end.

End PyStr.

Import PyStr.

(** ** [test_connectivity]: classification of the ping output *)

(** Lines 105-111: the [if]/[elif]/[else] on the captured output. *)
Definition classify (result : string) : Z * string :=
  if contains "0% packet loss" result then (0, "REACHABLE")
  else if contains "100% packet loss" result then (100, "BLOCKED")
  else (50, "PARTIAL").

(** ** The test bed: completion endpoint and Mininet hosts *)

(** One call that left the process, with what came back. *)
Inductive Call : Type :=
| Completion (user_message : string) (content : option string)
| Cmd (host command output : string).

(** The calls made so far, most recent first. *)
Definition History : Type := list Call.

(** What the program cannot decide itself.  [completion_oracle h msg] is
    [completion.choices[0].message.content] of the request with user message
    [msg] (the system prompt, model and sampling parameters are fixed), or
    [None] when anything inside the [try] block raises before the content is
    obtained.  [cmd_oracle h host c] is the output [net.get(host).cmd(c)]
    captures; a command that fails writes its complaint there.
    [node_IP host] is [net.get(host).IP()].  The oracles see the history, so
    an answer may depend on everything done before; quantifying over the
    oracles covers the non-determinism of the model and of the network. *)
Class Testbed : Type := {
  completion_oracle : History -> string -> option string;
  cmd_oracle : History -> string -> string -> string;
  node_IP : string -> string
}.

(** State passing over the history. *)
Definition M (A : Type) : Type := History -> A * History.

Definition ret {A : Type} (a : A) : M A := fun h => (a, h).

Definition bind {A B : Type} (m : M A) (k : A -> M B) : M B :=
  fun h => let '(a, h') := m h in k a h'.

(** The history at this point; used only to fill the attempt log. *)
Definition snapshot : M History := fun h => (h, h).

Declare Scope py_scope.
Delimit Scope py_scope with py.
Notation "x <- m ;; k" := (bind m (fun x => k))
  (at level 61, m at next level, right associativity) : py_scope.
Notation "' pat <- m ;; k" := (bind m (fun x => match x with pat => k end))
  (at level 61, pat pattern, m at next level, right associativity) : py_scope.
Open Scope py_scope.

Section Program.
Context {T : Testbed}.

Definition chat_completion (user_message : string) : M (option string) :=
  fun h => let r := completion_oracle h user_message in
           (r, Completion user_message r :: h).

Definition node_cmd (host command : string) : M string :=
  fun h => let out := cmd_oracle h host command in
           (out, Cmd host command out :: h).

(** ** [generate_network_command] *)

(** Lines 57-64. *)
Definition user_message (user_intent : string) (feedback : option string)
  : string :=
  match feedback with
  | Some (String _ _ as fb) =>
      "User intent: " ++ user_intent ++ String nl (String nl "")
      ++ "The previous command FAILED in testing. Details: " ++ fb
      ++ String nl ""
      ++ "Generate a different iptables command that might work better."
  | _ => "User intent: " ++ user_intent
  end.

Definition fence : string := "```".

(** Lines 77-89: the clean-up of the content. *)
Definition sanitize (content : string) : string :=
  let command := strip content in
  let command :=
    if contains fence command then
      let parts := split fence command in
      let command :=
        if 2 <=? Z.of_nat (List.length parts)
        then nth 1 parts EmptyString else command in
      let command := replace "sh" "" (replace "bash" "" command) in
      strip command
    else command in
  strip (replace (String squote "") ""
           (replace (String dquote "") "" command)).

(** Lines 66-96: the request, the clean-up, and [None] on any exception. *)
Definition generate_network_command
    (user_intent : string) (feedback : option string) : M (option string) :=
  content <- chat_completion (user_message user_intent feedback) ;;
  match content with
  | Some c => ret (Some (sanitize c))
  | None => ret None
  end.

(** ** [test_connectivity] *)

Definition test_connectivity (src dst : string) : M (Z * string) :=
  result <- node_cmd src ("ping -c 3 -W 1 " ++ node_IP dst) ;;
  ret (classify result).

(** ** [process_intent] *)

(** The dictionary [process_intent] returns. *)
Record IntentResult : Type := {
  success : bool;
  command : option string;
  attempts : Z
}.

(** Lines 156-159. *)
Definition success_predicate (intent : string) (loss_after : Z) : bool :=
  if contains "block" (lower intent)
  then loss_after =? 100
  else loss_after =? 0.

(** Lines 176-179. *)
Definition build_feedback (src dst : string) (loss_after : Z) : string :=
  "Expected traffic to be fully blocked between " ++ src ++ " and " ++ dst
  ++ ", " ++ "but after applying the rule, measured " ++ str loss_after
  ++ "% packet loss.".

(** What one pass through the loop body did; kept beside the result so
    that properties of single attempts can be stated.  [a_probe] is [None]
    when the attempt took the [continue] of line 131, and otherwise holds
    the history at the baseline test and the two measured losses. *)
Record AttemptRecord : Type := {
  a_index : Z;
  a_feedback : option string;
  a_start : History;
  a_command : option string;
  a_probe : option (History * Z * Z);
  a_end : History
}.

(** How the loop body ends: [continue] or falling off its end (with the
    feedback then in force), or [return]. *)
Inductive Step : Type :=
| Continue (feedback : option string)
| Return (r : IntentResult).

(** Lines 124-183: the body of the [for] loop. *)
Definition attempt_body (intent src dst : string) (attempt : Z)
    (feedback : option string) : M (Step * AttemptRecord) :=
  h0 <- snapshot ;;
  command <- generate_network_command intent feedback ;;
  match command with
  | Some (String _ _ as cmd) =>
      h1 <- snapshot ;;
      '(loss_before, status_before) <- test_connectivity src dst ;;
      deploy_output <- node_cmd src cmd ;;
      '(loss_after, status_after) <- test_connectivity src dst ;;
      if success_predicate intent loss_after then
        h <- snapshot ;;
        ret (Return {| success := true; command := Some cmd;
                       attempts := attempt |},
             {| a_index := attempt; a_feedback := feedback; a_start := h0;
                a_command := command;
                a_probe := Some (h1, loss_before, loss_after);
                a_end := h |})
      else
        let feedback' := Some (build_feedback src dst loss_after) in
        _ <- node_cmd src "iptables -F" ;;
        h <- snapshot ;;
        ret (Continue feedback',
             {| a_index := attempt; a_feedback := feedback; a_start := h0;
                a_command := command;
                a_probe := Some (h1, loss_before, loss_after);
                a_end := h |})
  | _ =>
      h <- snapshot ;;
      ret (Continue feedback,
           {| a_index := attempt; a_feedback := feedback; a_start := h0;
              a_command := command; a_probe := None; a_end := h |})
  end.

(** [range(a, b)] *)
Definition range (a b : Z) : list Z :=
  map (fun i => a + Z.of_nat i) (seq 0 (Z.to_nat (b - a))).

(** The [for] loop over the attempt numbers still to come: [Some r] when
    the body returned [r], [None] when the numbers ran out. *)
Fixpoint for_attempts (intent src dst : string) (todo : list Z)
    (feedback : option string)
  : M (option IntentResult * list AttemptRecord) :=
  match todo with
  | [] => ret (None, [])
  | attempt :: rest =>
      '(step, rec) <- attempt_body intent src dst attempt feedback ;;
      match step with
      | Return r => ret (Some r, [rec])
      | Continue feedback' =>
          '(r, log) <- for_attempts intent src dst rest feedback' ;;
          ret (r, rec :: log)
      end
  end.

(** Lines 114-186, with the log of the attempts made. *)
Definition process_intent_log (intent src dst : string) (max_attempts : Z)
  : M (IntentResult * list AttemptRecord) :=
  '(r, log) <- for_attempts intent src dst
                 (range 1 (max_attempts + 1)) None ;;
  match r with
  | Some r => ret (r, log)
  | None => ret ({| success := false; command := None;
                    attempts := max_attempts |}, log)
  end.

Definition process_intent (intent src dst : string) (max_attempts : Z)
  : M IntentResult :=
  '(r, _) <- process_intent_log intent src dst max_attempts ;;
  ret r.

(** ** [main]: the test loop and the summary *)

(** An entry of [tests]. *)
Record TestCase : Type := {
  t_intent : string;
  t_src : string;
  t_dst : string
}.

(** Lines 223-236; an element of [results] is the merged dictionary
    [{**test, **result}]. *)
Fixpoint run_tests (tests : list TestCase)
  : M (list (TestCase * IntentResult)) :=
  match tests with
  | [] => ret []
  | test :: rest =>
      result <- process_intent (t_intent test) (t_src test) (t_dst test) 3 ;;
      _ <- node_cmd (t_src test) "iptables -F" ;;
      results <- run_tests rest ;;
      ret ((test, result) :: results)
  end.

(** Line 250: [sum(1 for r in results if r["success"])]. *)
Definition success_count (results : list (TestCase * IntentResult)) : Z :=
  fold_left Z.add
    (map (fun _ => 1) (filter (fun r => success (snd r)) results)) 0.

(** [float(n)] and the binary64 operations. *)
Definition float_of_int (n : Z) : spec_float :=
  binary_normalize 53 1024 n 0 false.
Definition float_div : spec_float -> spec_float -> spec_float :=
  SFdiv 53 1024.
Definition float_mul : spec_float -> spec_float -> spec_float :=
  SFmul 53 1024.

(** Line 251.  [a / b] on two [int]s is the correctly rounded quotient,
    which for operands below 2^53 is the binary64 division of the two
    converted operands. *)
Definition success_rate (results : list (TestCase * IntentResult))
  : spec_float :=
  match results with
  | [] => S754_zero false
  | _ :: _ =>
      float_mul
        (float_div (float_of_int (success_count results))
                   (float_of_int (Z.of_nat (List.length results))))
        (float_of_int 100)
  end.

End Program.

(** ** Vocabulary for the statements *)

Definition chars : string -> list ascii := list_ascii_of_string.

Definition first_char (s : string) : option ascii :=
match s with
| EmptyString => None
| String c _ => Some c
end.

Fixpoint last_char (s : string) : option ascii :=
match s with
| EmptyString => None
| String c EmptyString => Some c
| String _ s' => last_char s'
end.

(** The loss measured after deployment, when the attempt got that far. *)
Definition loss_after (rec : AttemptRecord) : option Z :=
match a_probe rec with
| Some (_, _, l) => Some l
| None => None
end.

Definition deployed (rec : AttemptRecord) : bool :=
match a_probe rec with
| Some _ => true
| None => false
end.

(** The attempt reached verification and the success predicate held. *)
Definition attempt_succeeded (intent : string) (rec : AttemptRecord) : bool :=
match loss_after rec with
| Some l => success_predicate intent l
| None => false
end.

(** The loss measured by the most recent attempt of [earlier] (oldest
    first) that reached verification. *)
Fixpoint last_measured (earlier : list AttemptRecord) : option Z :=
match earlier with
| [] => None
| rec :: later =>
    match last_measured later with
    | Some l => Some l
    | None => loss_after rec
    end
end.

(** The history right after the generation step of the attempt. *)
Definition after_generation (rec : AttemptRecord) : History :=
match a_probe rec with
| Some (h, _, _) => h
| None => a_end rec
end.

(** A rule text that needs no clean-up: no code fence, no [sh], no quote
    character, no white space at either end. *)
Definition clean_rule (body : string) : bool :=
  negb (contains fence body) && negb (contains "sh" body)
  && negb (contains (String dquote "") body)
  && negb (contains (String squote "") body)
  && (strip body =? body)%string.

Definition is_completion (c : Call) : bool :=
match c with
| Completion _ _ => true
| Cmd _ _ _ => false
end.

Definition is_ping (c : Call) : bool :=
match c with
| Completion _ _ => false
| Cmd _ c _ => prefix "ping " c
end.

(** ** A scripted test bed *)

(** The generator answers with [replies] in order ([None]: the request
    raised), the pings print [ping_outputs] in order, every other command
    prints nothing. *)
Record Script : Type := {
  replies : list (option string);
  ping_outputs : list string
}.

Definition scripted (s : Script) : Testbed := {|
  completion_oracle h _ :=
    nth (List.length (filter is_completion h)) (replies s) None;
  cmd_oracle h _ c :=
    if prefix "ping " c
    then nth (List.length (filter is_ping h)) (ping_outputs s) EmptyString
    else EmptyString;
  node_IP host :=
    if (host =? "h1")%string then "10.0.0.1"
    else if (host =? "h2")%string then "10.0.0.2"
    else "10.0.0.3"
|}.

(** The rules in force on [host] after the calls of [h]: the commands run
    there since the last flush. *)
Fixpoint installed_rules (h : History) (host : string) : list string :=
match h with
| [] => []
| Completion _ _ :: h' => installed_rules h' host
| Cmd host' c _ :: h' =>
    if (host' =? host)%string then
      if (c =? "iptables -F")%string then []
      else if prefix "iptables" c then c :: installed_rules h' host
      else installed_rules h' host
    else installed_rules h' host
end.

Definition ping_ok : string :=
  "3 packets transmitted, 3 received, 0% packet loss, time 2003ms".
Definition ping_lost : string :=
  "3 packets transmitted, 0 received, 100% packet loss, time 2031ms".
Definition ping_some : string :=
  "3 packets transmitted, 2 received, 33% packet loss, time 2012ms".
Definition ping_error : string := "ping: connect: Network is unreachable".

Definition drop_rule : string := "iptables -I OUTPUT -d 10.0.0.2 -j DROP".

(** A rule that leaves some loss, then a failed request, then a rule that
    leaves some loss again. *)
Definition retry_bed : Testbed :=
  scripted {| replies := [Some drop_rule; None; Some "iptables -F"];
              ping_outputs := [ping_ok; ping_some; ping_ok; ping_some] |}.

(** The third attempt is the first to end with no loss. *)
Definition third_time_bed : Testbed :=
  scripted {| replies := [Some drop_rule; None; Some drop_rule];
              ping_outputs := [ping_lost; ping_some; ping_lost; ping_ok] |}.

(** No request ever yields a command. *)
Definition silent_bed : Testbed :=
  scripted {| replies := [None; Some "```sh```"; None];
              ping_outputs := [] |}.

(** Every ping loses all its packets. *)
Definition lost_bed : Testbed :=
  scripted {| replies := []; ping_outputs := [ping_lost] |}.

(** Each generated rule works: before it the ping gets through, after it
    every packet is lost. *)
Definition blocked_bed : Testbed :=
  scripted {| replies := [Some drop_rule; Some drop_rule; Some drop_rule];
              ping_outputs := [ping_ok; ping_lost; ping_ok; ping_lost;
                               ping_ok; ping_lost] |}.

(** The ping command itself fails. *)
Definition unreachable_bed : Testbed :=
  scripted {| replies := []; ping_outputs := [ping_error] |}.

(** An empty fenced block comes back. *)
Definition empty_block_bed : Testbed :=
  scripted {| replies := [Some "```bash```"]; ping_outputs := [] |}.

(** Two test cases: the first is verified at once, the second never. *)
Definition two_tests_bed : Testbed :=
  scripted {| replies := [Some "iptables -F"; Some drop_rule;
                          Some drop_rule; Some drop_rule];
              ping_outputs := [ping_ok; ping_ok; ping_ok; ping_some;
                               ping_ok; ping_some; ping_ok; ping_some] |}.

Definition two_tests : list TestCase :=
  [{| t_intent := "Allow traffic from h1 to h3"; t_src := "h1";
      t_dst := "h3" |};
   {| t_intent := "Block traffic from h1 to h2"; t_src := "h1";
      t_dst := "h2" |}].

(** ** More of [working_llm_system.py] *)

(** Lines 16-22: the key as read when the module is loaded
    ([os.getenv("GROQ_API_KEY", "").strip()], with [env] the value of the
    variable, [None] when it is unset), and whether the module then calls
    [sys.exit(1)]. *)
Definition read_api_key (env : option string) : string :=
  strip (match env with
         | Some v => v
         | None => EmptyString
         end).

Definition startup_exits (env : option string) : bool :=
  negb (truthy (Some (read_api_key env))).

(** Lines 243-248: the arguments of the [print] calls of the report, one
    string per call, for [results] numbered from [i]. *)
Fixpoint summary_lines (i : Z) (results : list (TestCase * IntentResult))
  : list string :=
  match results with
  | [] => []
  | r :: rest =>
      let status := if success (snd r) then "[PASS]" else "[FAIL]" in
      let later := summary_lines (i + 1) rest in
      String nl (" " ++ str i ++ ". " ++ status ++ " " ++ t_intent (fst r))
      :: ("    Attempts: " ++ str (attempts (snd r)))
      :: match command (snd r) with
         | Some (String _ _ as c) => ("    Command:  " ++ c) :: later
         | _ => later
         end
  end.

(** Lines 223-236 again, with the attempt log of every test case kept
    beside its result. *)
Fixpoint run_tests_log {T : Testbed} (tests : list TestCase)
  : M (list (TestCase * IntentResult * list AttemptRecord)) :=
  match tests with
  | [] => ret []
  | test :: rest =>
      '(result, log) <- process_intent_log (t_intent test) (t_src test)
                          (t_dst test) 3 ;;
      _ <- node_cmd (t_src test) "iptables -F" ;;
      results <- run_tests_log rest ;;
      ret ((test, result, log) :: results)
  end.

(** ** More vocabulary *)

Definition is_cmd (c : Call) : bool :=
match c with
| Completion _ _ => false
| Cmd _ _ _ => true
end.

(** [s] is [t] with some characters deleted. *)
Inductive subseq : string -> string -> Prop :=
| subseq_nil : subseq EmptyString EmptyString
| subseq_keep (c : ascii) (s t : string) :
    subseq s t -> subseq (String c s) (String c t)
| subseq_drop (c : ascii) (s t : string) :
    subseq s t -> subseq s (String c t).

(** The host and the shape of a call [process_intent] may make for a
    source and a destination: a completion request, or on the source host
    the ping of the destination, the flush, or a non-empty cleaned text.
    Which reply the text was cleaned from is said by [own_calls] below. *)
Definition own_call {T : Testbed} (src dst : string) (c : Call) : Prop :=
match c with
| Completion _ _ => True
| Cmd host command _ =>
    host = src
    /\ (command = "ping -c 3 -W 1 " ++ node_IP dst
        \/ command = "iptables -F"
        \/ (command <> "" /\ exists content, command = sanitize content))
end.

(** A call of a run of [process_intent], given the calls [earlier] that
    the run made before it (most recent first): a completion request for
    the intent; or, on the source host, the ping of the destination, the
    flush, or the non-empty cleaned content of the most recent of the
    earlier requests. *)
Definition own_call_after {T : Testbed} (intent src dst : string)
    (earlier : History) (c : Call) : Prop :=
match c with
| Completion msg _ => exists feedback, msg = user_message intent feedback
| Cmd host command _ =>
    host = src
    /\ (command = "ping -c 3 -W 1 " ++ node_IP dst
        \/ command = "iptables -F"
        \/ (command <> ""
            /\ exists msg content,
                find is_completion earlier
                = Some (Completion msg (Some content))
                /\ command = sanitize content))
end.

(** Every call of [new] (most recent first) is one the run may make after
    the calls of [new] that came before it. *)
Fixpoint own_calls {T : Testbed} (intent src dst : string) (new : History)
  : Prop :=
match new with
| [] => True
| c :: earlier =>
    own_call_after intent src dst earlier c
    /\ own_calls intent src dst earlier
end.

(** The attempt deployed its command and the verification failed. *)
Definition deployed_failed (intent : string) (rec : AttemptRecord) : bool :=
  deployed rec && negb (attempt_succeeded intent rec).

(** The calls of one attempt, as its record shows them (most recent
    first): the request, whose cleaned content is the command of the
    attempt; then nothing more when that command is [None] or empty, and
    otherwise the baseline ping, the command and the verification ping;
    then the flush when the verification failed. *)
Definition attempt_calls {T : Testbed} (intent src dst : string)
    (rec : AttemptRecord) : Prop :=
  exists content,
    after_generation rec
    = Completion (user_message intent (a_feedback rec)) content :: a_start rec
    /\ a_command rec = option_map sanitize content
    /\ match a_probe rec with
       | None =>
           truthy (a_command rec) = false
           /\ a_end rec
              = Completion (user_message intent (a_feedback rec)) content
                :: a_start rec
       | Some (hb, lb, la) =>
           exists cmd out1 out2 out3,
             a_command rec = Some cmd /\ cmd <> EmptyString
             /\ lb = fst (classify out1) /\ la = fst (classify out3)
             /\ let probed :=
                  Cmd src ("ping -c 3 -W 1 " ++ node_IP dst) out3
                  :: Cmd src cmd out2
                  :: Cmd src ("ping -c 3 -W 1 " ++ node_IP dst) out1
                  :: hb in
                if success_predicate intent la
                then a_end rec = probed
                else exists outf,
                    a_end rec = Cmd src "iptables -F" outf :: probed
       end.

(** ** [test_connectivity] with the exceptions of its calls *)

(** A failing ping that still prints its statistics: the kernel refuses
    every packet (an [OUTPUT] rule drops them) and none is received. *)
Definition ping_denied : string :=
  "ping: sendmsg: Operation not permitted" ++ String nl ""
  ++ "ping: sendmsg: Operation not permitted" ++ String nl ""
  ++ "ping: sendmsg: Operation not permitted" ++ String nl ""
  ++ "3 packets transmitted, 0 received, 100% packet loss, time 2031ms".

Definition denied_bed : Testbed :=
  scripted {| replies := []; ping_outputs := [ping_denied] |}.

Module Raising.

(** What the calls of lines 101-103 can raise. *)
Inductive pyexc : Type :=
| KeyError (name : string)
| OtherError (name : string).

Inductive outcome (A : Type) : Type :=
| Ok (a : A)
| Raise (e : pyexc).

Arguments Ok {A} a.
Arguments Raise {A} e.

(** A Mininet node.  [IP] is [node.IP()] as the f-string of line 103
    prints it.  [cmd h c] is [node.cmd(c)] after the calls [h]: the output
    it captured, or the exception it raised (the shell of the node is gone,
    the wait was interrupted). *)
Record Node : Type := {
  IP : string;
  cmd : History -> string -> outcome string
}.

(** [net.nameToNode], the dictionary [net.get] looks names up in. *)
Definition Mininet : Type := string -> option Node.

(** [net.get(name)]: [nameToNode[name]], a [KeyError] for a name that is
    not a node of the network. *)
Definition get (net : Mininet) (name : string) : outcome Node :=
  match net name with
  | Some node => Ok node
  | None => Raise (KeyError name)
  end.

(** Lines 99-111, statement by statement.  The function has no [try]: what
    a call raises leaves the function, and the call that raised is not in
    the history. *)
Definition test_connectivity (net : Mininet) (src dst : string)
    (h : History) : outcome (Z * string) * History :=
  match get net src with
  | Raise e => (Raise e, h)
  | Ok h_src =>
      match get net dst with
      | Raise e => (Raise e, h)
      | Ok h_dst =>
          let command := "ping -c 3 -W 1 " ++ IP h_dst in
          match cmd h_src h command with
          | Raise e => (Raise e, h)
          | Ok result => (Ok (classify result), Cmd src command result :: h)
          end
      end
  end.

(** The network of a test bed: every name is a node and no command
    raises.  This is the network the rest of the development works in. *)
Definition net_of (T : Testbed) : Mininet :=
  fun name =>
    Some {| IP := node_IP name;
            cmd := fun h c => Ok (cmd_oracle h name c) |}.

(** The network [main] builds: the hosts [h1], [h2] and [h3]. *)
Definition main_net (T : Testbed) : Mininet :=
  fun name =>
    if existsb (String.eqb name) ["h1"; "h2"; "h3"]
    then net_of T name else None.

(** The same network after [net.stop()]: the shells are gone, and [cmd]
    fails its assertion. *)
Definition stopped_net (T : Testbed) : Mininet :=
  fun name =>
    if existsb (String.eqb name) ["h1"; "h2"; "h3"]
    then Some {| IP := node_IP name;
                 cmd := fun _ _ => Raise (OtherError "AssertionError") |}
    else None.

End Raising.

(** ** [topology_llm_test.py] *)

Module Topology.

(** The values [resp.json()] can return. *)
#[warnings="-register-all"]
Inductive pyval : Type :=
| PNone
| PBool (b : bool)
| PInt (n : Z)
| PFloat (f : spec_float)
| PStr (s : string)
| PList (items : list pyval)
| PDict (items : list (string * pyval)).

(** What stands between the brackets of [v[k]]. *)
Inductive pykey : Type :=
| KStr (s : string)
| KInt (i : Z).

Inductive pyexc : Type :=
| KeyError (k : pykey)
| IndexError
| TypeError
| OtherError (name : string).

Inductive outcome (A : Type) : Type :=
| Ok (a : A)
| Raise (e : pyexc).

Arguments Ok {A} a.
Arguments Raise {A} e.

Definition and_then {A B : Type} (o : outcome A) (k : A -> outcome B)
  : outcome B :=
  match o with
  | Ok a => k a
  | Raise e => Raise e
  end.

(** The value a [dict] holds for a key; the list gives each key once. *)
Fixpoint dict_get (items : list (string * pyval)) (k : string)
  : option pyval :=
  match items with
  | [] => None
  | (k', v) :: rest => if (k' =? k)%string then Some v else dict_get rest k
  end.

(** Indexing a sequence: a negative index counts from the end. *)
Definition seq_index {A : Type} (l : list A) (i : Z) : option A :=
  let n := Z.of_nat (List.length l) in
  let j := if i <? 0 then i + n else i in
  if (0 <=? j) && (j <? n) then nth_error l (Z.to_nat j) else None.

(** [v[k]] *)
Definition subscript (v : pyval) (k : pykey) : outcome pyval :=
  match v, k with
  | PDict items, KStr s =>
      match dict_get items s with
      | Some x => Ok x
      | None => Raise (KeyError k)
      end
  | PDict _, KInt _ => Raise (KeyError k)
  | PList items, KInt i =>
      match seq_index items i with
      | Some x => Ok x
      | None => Raise IndexError
      end
  | PStr s, KInt i =>
      match seq_index (list_ascii_of_string s) i with
      | Some c => Ok (PStr (String c EmptyString))
      | None => Raise IndexError
      end
  | _, _ => Raise TypeError
  end.

(** Lines 11-18. *)
Definition get_topology_text : string :=
  String.concat (String nl "")
    ["Network topology summary:";
     "Host h1 | IP: 10.0.0.1 | Switch: s1";
     "Host h2 | IP: 10.0.0.2 | Switch: s1";
     "Host h3 | IP: 10.0.0.3 | Switch: s1"].

(** Lines 30-44: the prompt, line by line. *)
Definition build_prompt (topology_text user_intent : string) : string :=
  String.concat (String nl "")
    [""; "You are an SDN rule generator."; "";
     "Here is the network topology:"; topology_text; "";
     "User intent: " ++ String dquote (user_intent ++ String dquote "");
     ""; "Generate an SDN configuration in JSON with:"; "- switch_id";
     "- match_src_ip"; "- match_dst_ip"; "- action (drop or allow)";
     "Only output the JSON, nothing else."; ""].

(** [requests.post(GROQ_URL, headers, json=payload).json()] for a key and
    a prompt: the decoded body, or the exception either call raised.  A
    reply with an error status is decoded like any other. *)
Class HttpBed : Type := {
  post_json : string -> string -> outcome pyval
}.

(** Lines 21-61: the value returned (or the exception raised), and the
    prompts posted. *)
Definition call_groq_llm {H : HttpBed} (GROQ_API_KEY : option string)
    (topology_text user_intent : string) : outcome pyval * list string :=
  match GROQ_API_KEY with
  | Some (String _ _ as key) =>
      let prompt := build_prompt topology_text user_intent in
      (and_then (post_json key prompt) (fun data =>
       and_then (subscript data (KStr "choices")) (fun choices =>
       and_then (subscript choices (KInt 0)) (fun choice =>
       and_then (subscript choice (KStr "message")) (fun message =>
       subscript message (KStr "content"))))),
       [prompt])
  | _ => (Ok PNone, [])
  end.

(** Lines 81-82 of [main]: the text handed to [json.loads]. *)
Definition clean_llm_output (llm_output : string) : string :=
  replace "```" "" (replace "```json" "" (strip llm_output)).

(** The reply of the chat endpoint that carries [content], and an error
    reply. *)
Definition chat_reply (content : pyval) : pyval :=
  PDict [("id", PStr "chatcmpl-1");
         ("choices",
          PList [PDict [("index", PInt 0);
                        ("message",
                         PDict [("role", PStr "assistant");
                                ("content", content)])]])].

Definition error_reply : pyval :=
  PDict [("error", PDict [("message", PStr "Invalid API Key")])].

Definition reply_bed (data : pyval) : HttpBed :=
  {| post_json _ _ := Ok data |}.

End Topology.

(* ================================================================== *)
(** * Part II.  Properties                                              *)
(* ================================================================== *)

Example classify_ok : classify ping_ok = (0, "REACHABLE").
Proof. reflexivity. Qed.

Example split_ex : split "```" "a```b```" = ["a"; "b"; ""].
Proof. reflexivity. Qed.

Example replace_ex : replace "sh" "" "sshh bash" = "sh ba".
Proof. reflexivity. Qed.

Example strip_ex : strip (String nl "  ab c  ") = "ab c".
Proof. reflexivity. Qed.

Example str_ex : str 100 = "100" /\ str 0 = "0" /\ str (-5) = "-5".
Proof. repeat split. Qed.

Example lower_ex : lower "Block H1" = "block h1".
Proof. reflexivity. Qed.

Example sanitize_ex :
  sanitize ("```bash" ++ String nl drop_rule ++ String nl "```") = drop_rule.
Proof. reflexivity. Qed.

Example run_ex :
  fst (@process_intent retry_bed "Block traffic from h1 to h2" "h1" "h2" 3 [])
  = {| success := false; command := None; attempts := 3 |}.
Proof. vm_compute. reflexivity. Qed.

(** ** Strings: prefixes and occurrences *)

Section StringFacts.

Lemma append_nil_r (s : string) : s ++ "" = s.
Proof. induction s as [|c s IH]; simpl; [reflexivity | now rewrite IH]. Qed.

Lemma append_assoc (a b c : string) : (a ++ b) ++ c = a ++ (b ++ c).
Proof. induction a as [|x a IH]; simpl; [reflexivity | now rewrite IH]. Qed.

Lemma prefix_cons (a b : ascii) (s t : string) :
  prefix (String a s) (String b t) = Ascii.eqb a b && prefix s t.
Proof.
  simpl. destruct (ascii_dec a b) as [->|Hne].
  - now rewrite Ascii.eqb_refl.
  - apply Ascii.eqb_neq in Hne. now rewrite Hne.
Qed.

Lemma prefix_nil_l (s : string) : prefix "" s = true.
Proof. now destruct s. Qed.

Lemma prefix_nil_r (a : string) : prefix a "" = true -> a = "".
Proof. destruct a; [reflexivity | discriminate]. Qed.

Lemma prefix_append (a r : string) : prefix a (a ++ r) = true.
Proof.
  induction a as [|x a IH]; [now destruct r|].
  change ((String x a) ++ r) with (String x (a ++ r)).
  rewrite prefix_cons, Ascii.eqb_refl. exact IH.
Qed.

Lemma prefix_inv (a s : string) : prefix a s = true -> exists r, s = a ++ r.
Proof.
  revert s. induction a as [|x a IH]; intros s H.
  - now exists s.
  - destruct s as [|y s]; [discriminate|].
    rewrite prefix_cons in H. apply andb_true_iff in H as [Hxy Hp].
    apply Ascii.eqb_eq in Hxy as ->.
    destruct (IH _ Hp) as [r ->]. now exists r.
Qed.

Lemma contains_unfold (sub : string) (c : ascii) (s : string) :
  contains sub (String c s) = prefix sub (String c s) || contains sub s.
Proof. reflexivity. Qed.

Lemma contains_append_l (sub p s : string) :
  contains sub s = true -> contains sub (p ++ s) = true.
Proof.
  intros H. induction p as [|c p IH]; [exact H|].
  change ((String c p) ++ s) with (String c (p ++ s)).
  rewrite contains_unfold, IH. apply orb_true_r.
Qed.

Lemma contains_intro (sub p q : string) : contains sub (p ++ sub ++ q) = true.
Proof.
  apply contains_append_l.
  destruct (sub ++ q) as [|c t] eqn:E.
  - destruct sub; [reflexivity | discriminate].
  - rewrite contains_unfold, <- E, prefix_append. reflexivity.
Qed.

Lemma contains_inv (sub s : string) :
  contains sub s = true -> exists p q, s = p ++ sub ++ q.
Proof.
  induction s as [|c s IH]; intros H.
  - simpl in H. rewrite orb_false_r in H. apply prefix_nil_r in H as ->.
    now exists "", "".
  - rewrite contains_unfold in H. apply orb_true_iff in H as [H|H].
    + destruct (prefix_inv _ _ H) as [r ->]. now exists "", r.
    + destruct (IH H) as (p & q & ->). now exists (String c p), q.
Qed.

(** An occurrence of [a ++ b] is an occurrence of [b]. *)
Lemma contains_suffix_of_needle (a b s : string) :
  contains (a ++ b) s = true -> contains b s = true.
Proof.
  intros H. destruct (contains_inv _ _ H) as (p & q & ->).
  rewrite append_assoc, <- (append_assoc p a). apply contains_intro.
Qed.

Lemma contains_false_cons (sub : string) (c : ascii) (s : string) :
  contains sub (String c s) = false ->
  prefix sub (String c s) = false /\ contains sub s = false.
Proof. rewrite contains_unfold. apply orb_false_iff. Qed.

End StringFacts.

(** ** The classification of the ping output *)

Lemma full_loss_reports_zero (result : string) :
  contains "100% packet loss" result = true ->
  contains "0% packet loss" result = true.
Proof. apply (contains_suffix_of_needle "10" "0% packet loss"). Qed.

Lemma classify_cases (result : string) :
  classify result = (0, "REACHABLE") /\ contains "0% packet loss" result = true
  \/ classify result = (50, "PARTIAL")
     /\ contains "0% packet loss" result = false.
Proof.
  unfold classify.
  destruct (contains "0% packet loss" result) eqn:E0; [now left|].
  destruct (contains "100% packet loss" result) eqn:E100.
  - apply full_loss_reports_zero in E100. congruence.
  - now right.
Qed.

(** C1.  The output of a ping run that lost every packet is classified
    [(0, "REACHABLE")], because the phrase tested first, [0% packet loss],
    is the tail of [100% packet loss]; for the same reason no output at all
    is classified [(100, "BLOCKED")]: the [elif] branch is dead.  So
    [test_connectivity] reports a reachable destination when every packet
    was lost, and a block intent whose rule works at the first attempt is
    reported as failed after three attempts. *)
Theorem classify_full_loss_is_reachable :
  classify ping_lost = (0, "REACHABLE")
  /\ (forall result, contains "100% packet loss" result = true ->
                     classify result = (0, "REACHABLE"))
  /\ (forall result, classify result <> (100, "BLOCKED"))
  /\ fst (@test_connectivity lost_bed "h1" "h2" []) = (0, "REACHABLE")
  /\ fst (@process_intent blocked_bed "Block traffic from h1 to h2"
            "h1" "h2" 3 [])
     = {| success := false; command := None; attempts := 3 |}.
Proof.
  split; [reflexivity|]. split; [|split; [|split]].
  - intros result H. unfold classify.
    now rewrite (full_loss_reports_zero _ H).
  - intros result. destruct (classify_cases result) as [[-> _]|[-> _]];
      discriminate.
  - reflexivity.
  - vm_compute. reflexivity.
Qed.

(** ** One pass through the loop body *)

Section BodyFacts.
Context {T : Testbed}.

Lemma generate_network_command_eq (intent : string) (fb : option string)
    (h : History) :
  generate_network_command intent fb h =
  (option_map sanitize (completion_oracle h (user_message intent fb)),
   Completion (user_message intent fb)
     (completion_oracle h (user_message intent fb)) :: h).
Proof.
  unfold generate_network_command, chat_completion, bind, ret.
  now destruct (completion_oracle h (user_message intent fb)).
Qed.

Lemma test_connectivity_eq (src dst : string) (h : History) :
  test_connectivity src dst h =
  (classify (cmd_oracle h src ("ping -c 3 -W 1 " ++ node_IP dst)),
   Cmd src ("ping -c 3 -W 1 " ++ node_IP dst)
     (cmd_oracle h src ("ping -c 3 -W 1 " ++ node_IP dst)) :: h).
Proof. reflexivity. Qed.

(** The [continue] of line 131. *)
Lemma attempt_body_skip (intent src dst : string) (attempt : Z)
    (fb : option string) (h h1 : History) (cmd : option string) :
  generate_network_command intent fb h = (cmd, h1) ->
  truthy cmd = false ->
  attempt_body intent src dst attempt fb h =
  (Continue fb,
   {| a_index := attempt; a_feedback := fb; a_start := h; a_command := cmd;
      a_probe := None; a_end := h1 |}, h1).
Proof.
  intros Hg Ht. unfold attempt_body, bind, snapshot, ret. rewrite Hg.
  destruct cmd as [[|a c]|]; [reflexivity | discriminate | reflexivity].
Qed.

(** Lines 133-183, when a command came back. *)
Lemma attempt_body_deploy (intent src dst : string) (attempt : Z)
    (fb : option string) (h h1 : History) (cmd : string) :
  generate_network_command intent fb h = (Some cmd, h1) ->
  truthy (Some cmd) = true ->
  let '(lb, _, h2) := test_connectivity src dst h1 in
  let '(_, h3) := node_cmd src cmd h2 in
  let '(la, _, h4) := test_connectivity src dst h3 in
  let h5 := snd (node_cmd src "iptables -F" h4) in
  attempt_body intent src dst attempt fb h =
  if success_predicate intent la
  then (Return {| success := true; command := Some cmd; attempts := attempt |},
        {| a_index := attempt; a_feedback := fb; a_start := h;
           a_command := Some cmd; a_probe := Some (h1, lb, la);
           a_end := h4 |}, h4)
  else (Continue (Some (build_feedback src dst la)),
        {| a_index := attempt; a_feedback := fb; a_start := h;
           a_command := Some cmd; a_probe := Some (h1, lb, la);
           a_end := h5 |}, h5).
Proof.
  intros Hg Ht. destruct cmd as [|a c]; [discriminate|].
  unfold attempt_body, bind, snapshot, ret. rewrite Hg.
  destruct (test_connectivity src dst h1) as [[lb sb] h2].
  destruct (node_cmd src (String a c) h2) as [o h3].
  destruct (test_connectivity src dst h3) as [[la sa] h4].
  now destruct (success_predicate intent la).
Qed.

(** The record tells how the body ended. *)
Lemma attempt_body_step (intent src dst : string) (attempt : Z)
    (fb : option string) (h h' : History) (step : Step) (rec : AttemptRecord) :
  attempt_body intent src dst attempt fb h = (step, rec, h') ->
  a_index rec = attempt /\ a_feedback rec = fb /\ a_start rec = h
  /\ a_end rec = h'
  /\ match loss_after rec with
     | None => step = Continue fb /\ truthy (a_command rec) = false
     | Some la =>
         truthy (a_command rec) = true /\
         if success_predicate intent la
         then step = Return {| success := true; command := a_command rec;
                               attempts := attempt |}
         else step = Continue (Some (build_feedback src dst la))
     end.
Proof.
  intros H.
  destruct (generate_network_command intent fb h) as [cmd h1] eqn:Hg.
  destruct (truthy cmd) eqn:Ht.
  - destruct cmd as [cmd|]; [|discriminate].
    pose proof (attempt_body_deploy intent src dst attempt fb h h1 cmd Hg Ht)
      as E.
    destruct (test_connectivity src dst h1) as [[lb sb] h2].
    destruct (node_cmd src cmd h2) as [o h3].
    destruct (test_connectivity src dst h3) as [[la sa] h4].
    rewrite E in H. unfold loss_after.
    destruct (success_predicate intent la) eqn:Hs;
      inversion H; subst; simpl; rewrite Hs; repeat split; auto.
  - rewrite (attempt_body_skip _ _ _ _ _ _ _ _ Hg Ht) in H.
    inversion H; subst; simpl. repeat split; auto.
Qed.

(** A loss measured by the body is one that [classify] can return. *)
Lemma attempt_body_loss (intent src dst : string) (attempt : Z)
    (fb : option string) (h h' : History) (step : Step) (rec : AttemptRecord) :
  attempt_body intent src dst attempt fb h = (step, rec, h') ->
  forall l, loss_after rec = Some l -> l = 0 \/ l = 50.
Proof.
  intros H l Hl.
  destruct (generate_network_command intent fb h) as [cmd h1] eqn:Hg.
  destruct (truthy cmd) eqn:Ht.
  - destruct cmd as [cmd|]; [|discriminate].
    pose proof (attempt_body_deploy intent src dst attempt fb h h1 cmd Hg Ht)
      as E.
    destruct (test_connectivity src dst h1) as [[lb sb] h2].
    destruct (node_cmd src cmd h2) as [o h3].
    destruct (test_connectivity src dst h3) as [[la sa] h4] eqn:E3.
    rewrite test_connectivity_eq in E3. rewrite E in H.
    assert (Hla : la = 0 \/ la = 50).
    { destruct (classify_cases
                  (cmd_oracle h3 src ("ping -c 3 -W 1 " ++ node_IP dst)))
        as [[C _]|[C _]]; rewrite C in E3; inversion E3; auto. }
    unfold loss_after in Hl.
    destruct (success_predicate intent la); inversion H; subst;
      simpl in Hl; inversion Hl; subst; exact Hla.
  - rewrite (attempt_body_skip _ _ _ _ _ _ _ _ Hg Ht) in H.
    inversion H; subst. discriminate.
Qed.

End BodyFacts.

(** ** The success predicate *)

(** C2.  For an intent whose lower-cased text contains [block] the
    predicate holds exactly for a loss of 100, for every other intent
    exactly for a loss of 0; and a pass through the loop body returns (with
    [success] true) exactly when it measured a loss after deployment that
    satisfies the predicate. *)
Theorem success_iff_expected_loss (intent : string) :
  (contains "block" (lower intent) = true ->
   forall loss, success_predicate intent loss = true <-> loss = 100)
  /\ (contains "block" (lower intent) = false ->
      forall loss, success_predicate intent loss = true <-> loss = 0)
  /\ (forall (T : Testbed) src dst attempt fb h,
        let '(step, rec, _) := attempt_body intent src dst attempt fb h in
        (attempt_succeeded intent rec = true <->
         step = Return {| success := true; command := a_command rec;
                          attempts := attempt |})
        /\ (attempt_succeeded intent rec = false <->
            exists fb', step = Continue fb')).
Proof.
  split; [|split].
  - intros H loss. unfold success_predicate. rewrite H. apply Z.eqb_eq.
  - intros H loss. unfold success_predicate. rewrite H. apply Z.eqb_eq.
  - intros T src dst attempt fb h.
    destruct (attempt_body intent src dst attempt fb h)
      as [[step rec] h'] eqn:E.
    apply attempt_body_step in E as (_ & _ & _ & _ & E).
    unfold attempt_succeeded.
    destruct (loss_after rec) as [la|].
    + destruct E as [_ E].
      destruct (success_predicate intent la); rewrite E; split; split;
        try congruence; try (intros [? ?]; congruence); eauto.
    + destruct E as [-> _]. split; split;
        try congruence; try (intros [? ?]; congruence); eauto.
Qed.

Lemma success_iff_expected_loss_witness :
  (forall loss,
      success_predicate "Block traffic from h1 to h2" loss = true
      <-> loss = 100)
  /\ (forall loss,
        success_predicate "Allow traffic from h1 to h2" loss = true
        <-> loss = 0).
Proof.
  split.
  - apply (proj1 (success_iff_expected_loss "Block traffic from h1 to h2")).
    reflexivity.
  - apply (proj1 (proj2
             (success_iff_expected_loss "Allow traffic from h1 to h2"))).
    reflexivity.
Defined.

(** ** The connectivity probe *)

Section ProbeFacts.

(** What the three branches of lines 105-111 can give. *)
Lemma classify_partial (out : string) :
  In (classify out) [(0, "REACHABLE"); (100, "BLOCKED"); (50, "PARTIAL")]
  /\ (classify out = (50, "PARTIAL")
      <-> contains "0% packet loss" out = false)
  /\ (contains "% packet loss" out = false -> classify out = (50, "PARTIAL")).
Proof.
  destruct (classify_cases out) as [[E C]|[E C]]; rewrite E, C.
  - split; [simpl; auto|]. split; [split; discriminate|].
    intros H.
    pose proof (contains_suffix_of_needle "0" "% packet loss" out C).
    congruence.
  - split; [simpl; auto|]. split; [split; reflexivity | reflexivity].
Qed.

(** In the network of a test bed the probe with exceptions is the probe
    of Part I. *)
Lemma test_connectivity_net_of (T : Testbed) (src dst : string)
    (h : History) :
  Raising.test_connectivity (Raising.net_of T) src dst h
  = (Raising.Ok (fst (test_connectivity src dst h)),
     snd (test_connectivity src dst h)).
Proof. reflexivity. Qed.

Lemma test_connectivity_returns (net : Raising.Mininet) (src dst : string)
    (h h' : History) (pair : Z * string) :
  Raising.test_connectivity net src dst h = (Raising.Ok pair, h')
  <-> exists h_src h_dst out,
      net src = Some h_src /\ net dst = Some h_dst
      /\ Raising.cmd h_src h ("ping -c 3 -W 1 " ++ Raising.IP h_dst)
         = Raising.Ok out
      /\ pair = classify out
      /\ h' = Cmd src ("ping -c 3 -W 1 " ++ Raising.IP h_dst) out :: h.
Proof.
  unfold Raising.test_connectivity, Raising.get. split.
  - destruct (net src) as [h_src|]; [|discriminate].
    destruct (net dst) as [h_dst|]; [|discriminate].
    destruct (Raising.cmd h_src h _) as [out|e] eqn:E; [|discriminate].
    intros H. inversion H; subst. exists h_src, h_dst, out. auto.
  - intros (h_src & h_dst & out & -> & -> & E & -> & ->).
    now rewrite E.
Qed.

Lemma test_connectivity_raises_iff (net : Raising.Mininet)
    (src dst : string) (h h' : History) (e : Raising.pyexc) :
  Raising.test_connectivity net src dst h = (Raising.Raise e, h')
  <-> h' = h
      /\ (net src = None /\ e = Raising.KeyError src
          \/ (exists h_src,
                 net src = Some h_src /\ net dst = None
                 /\ e = Raising.KeyError dst)
          \/ (exists h_src h_dst,
                 net src = Some h_src /\ net dst = Some h_dst
                 /\ Raising.cmd h_src h
                      ("ping -c 3 -W 1 " ++ Raising.IP h_dst)
                    = Raising.Raise e)).
Proof.
  unfold Raising.test_connectivity, Raising.get. split.
  - destruct (net src) as [h_src|].
    + destruct (net dst) as [h_dst|].
      * destruct (Raising.cmd h_src h _) as [out|e'] eqn:E; [discriminate|].
        intros H. inversion H; subst. split; [reflexivity|].
        right. right. exists h_src, h_dst. auto.
      * intros H. inversion H; subst. split; [reflexivity|].
        right. left. exists h_src. auto.
    + intros H. inversion H; subst. split; [reflexivity|]. now left.
  - intros [-> [[-> ->]|[(h_src & -> & -> & ->)|H]]];
      [reflexivity | reflexivity |].
    destruct H as (h_src & h_dst & -> & -> & E). now rewrite E.
Qed.

End ProbeFacts.

(** C6.  [test_connectivity] catches nothing.  It returns a
    pair exactly when both names are nodes of the network and the ping
    command hands back its output; the pair is then the classification of
    that output alone (one of the three pairs; [(50, "PARTIAL")] exactly
    when [0% packet loss] does not occur in it, which covers every output
    without a statistics line), and the one call is added to the history.
    It raises exactly when a name is unknown ([KeyError], the source
    first) or the command call raises (that exception), and adds nothing
    to the history then.  In the network of a test bed, where no call
    raises, it is the probe of Part I. *)
Theorem test_connectivity_outcome (net : Raising.Mininet)
    (src dst : string) (h : History) :
  (forall pair h',
      Raising.test_connectivity net src dst h = (Raising.Ok pair, h')
      <-> exists h_src h_dst out,
          net src = Some h_src /\ net dst = Some h_dst
          /\ Raising.cmd h_src h ("ping -c 3 -W 1 " ++ Raising.IP h_dst)
             = Raising.Ok out
          /\ pair = classify out
          /\ h' = Cmd src ("ping -c 3 -W 1 " ++ Raising.IP h_dst) out :: h)
  /\ (forall e h',
        Raising.test_connectivity net src dst h = (Raising.Raise e, h')
        <-> h' = h
            /\ (net src = None /\ e = Raising.KeyError src
                \/ (exists h_src,
                       net src = Some h_src /\ net dst = None
                       /\ e = Raising.KeyError dst)
                \/ (exists h_src h_dst,
                       net src = Some h_src /\ net dst = Some h_dst
                       /\ Raising.cmd h_src h
                            ("ping -c 3 -W 1 " ++ Raising.IP h_dst)
                          = Raising.Raise e)))
  /\ (forall out,
        In (classify out)
          [(0, "REACHABLE"); (100, "BLOCKED"); (50, "PARTIAL")]
        /\ (classify out = (50, "PARTIAL")
            <-> contains "0% packet loss" out = false)
        /\ (contains "% packet loss" out = false ->
            classify out = (50, "PARTIAL")))
  /\ (forall T : Testbed,
        Raising.test_connectivity (Raising.net_of T) src dst h
        = (Raising.Ok (fst (test_connectivity src dst h)),
           snd (test_connectivity src dst h))).
Proof.
  split; [intros pair h'; apply test_connectivity_returns|].
  split; [intros e h'; apply test_connectivity_raises_iff|].
  split; [exact classify_partial|].
  intros T. apply test_connectivity_net_of.
Qed.

Lemma test_connectivity_outcome_witness :
  Raising.test_connectivity (Raising.main_net unreachable_bed) "h1" "h2" []
  = (Raising.Ok (50, "PARTIAL"),
     [Cmd "h1" "ping -c 3 -W 1 10.0.0.2" ping_error]).
Proof.
  destruct (test_connectivity_outcome (Raising.main_net unreachable_bed)
              "h1" "h2" []) as (R & _ & P & _).
  apply R. eexists _, _, ping_error.
  split; [reflexivity|]. split; [reflexivity|]. split; [reflexivity|].
  split; [|reflexivity].
  symmetry. apply (proj2 (proj2 (P ping_error))). reflexivity.
Defined.

(** That the probe never throws, and that every failure of the command is
    classified [(50, "PARTIAL")], does not hold of lines 99-111.  A
    name that is not a node raises [KeyError]; a command call that raises
    is not caught; and a ping that fails while printing its statistics is
    classified by what it printed (lines 105-108), not as
    [(50, "PARTIAL")]. *)
Lemma test_connectivity_throws :
  Raising.test_connectivity (Raising.main_net unreachable_bed) "h1" "h9" []
  = (Raising.Raise (Raising.KeyError "h9"), [])
  /\ Raising.test_connectivity (Raising.stopped_net unreachable_bed)
       "h1" "h2" []
     = (Raising.Raise (Raising.OtherError "AssertionError"), [])
  /\ Raising.test_connectivity (Raising.main_net denied_bed) "h1" "h2" []
     = (Raising.Ok (0, "REACHABLE"),
        [Cmd "h1" "ping -c 3 -W 1 10.0.0.2" ping_denied]).
Proof.
  split; [reflexivity|]. split; reflexivity.
Qed.

(** ** Strings: [strip] and [replace] *)

Section StripFacts.

Lemma lstrip_incl (s : string) (x : ascii) :
  In x (chars (lstrip s)) -> In x (chars s).
Proof.
  induction s as [|c s IH]; simpl; [auto|].
  destruct (isspace c); simpl; auto.
Qed.

Lemma rstrip_cons (c : ascii) (s : string) :
  rstrip (String c s) =
  match rstrip s with
  | EmptyString => if isspace c then EmptyString else String c EmptyString
  | r => String c r
  end.
Proof. reflexivity. Qed.

Lemma rstrip_incl (s : string) (x : ascii) :
  In x (chars (rstrip s)) -> In x (chars s).
Proof.
  induction s as [|c s IH]; [auto|].
  rewrite rstrip_cons. destruct (rstrip s) as [|d r].
  - destruct (isspace c); simpl; tauto.
  - simpl in *. tauto.
Qed.

Lemma strip_incl (s : string) (x : ascii) :
  In x (chars (strip s)) -> In x (chars s).
Proof. intros H. now apply lstrip_incl, rstrip_incl. Qed.

Lemma first_char_in (s : string) (c : ascii) :
  first_char s = Some c -> In c (chars s).
Proof. destruct s; simpl; [discriminate|]. intros [= ->]. now left. Qed.

Lemma last_char_in (s : string) (c : ascii) :
  last_char s = Some c -> In c (chars s).
Proof.
  induction s as [|a s IH]; [discriminate|].
  destruct s as [|b s]; simpl in *.
  - intros [= ->]. now left.
  - intros H. right. now apply IH.
Qed.

Lemma last_char_append (x y : string) :
  y <> "" -> last_char (x ++ y) = last_char y.
Proof.
  intros Hy. induction x as [|a x IH]; [reflexivity|].
  simpl. rewrite IH. destruct (x ++ y) eqn:E; [|reflexivity].
  destruct x; simpl in E; [contradiction | discriminate].
Qed.

Lemma lstrip_first (s : string) (c : ascii) :
  first_char (lstrip s) = Some c -> isspace c = false.
Proof.
  induction s as [|a s IH]; simpl; [discriminate|].
  destruct (isspace a) eqn:E; [exact IH|].
  simpl. now intros [= <-].
Qed.

Lemma rstrip_last (s : string) (c : ascii) :
  last_char (rstrip s) = Some c -> isspace c = false.
Proof.
  induction s as [|a s IH]; [discriminate|].
  rewrite rstrip_cons. destruct (rstrip s) as [|d r] eqn:E.
  - destruct (isspace a) eqn:Ea; simpl; [discriminate|]. now intros [= <-].
  - exact IH.
Qed.

Lemma rstrip_first (s : string) (c : ascii) :
  first_char (rstrip s) = Some c -> first_char s = Some c.
Proof.
  destruct s as [|a s]; [discriminate|].
  rewrite rstrip_cons. destruct (rstrip s).
  - destruct (isspace a); simpl; [discriminate | auto].
  - simpl. auto.
Qed.

Lemma lstrip_id (s : string) :
  (forall c, first_char s = Some c -> isspace c = false) -> lstrip s = s.
Proof.
  destruct s as [|a s]; [reflexivity|]. intros H. simpl.
  now rewrite (H a eq_refl).
Qed.

Lemma rstrip_id (s : string) :
  (forall c, last_char s = Some c -> isspace c = false) -> rstrip s = s.
Proof.
  induction s as [|a s IH]; [reflexivity|]. intros H.
  rewrite rstrip_cons. destruct s as [|b s].
  - simpl. now rewrite (H a eq_refl).
  - rewrite IH; [reflexivity|]. intros c Hc. apply H. exact Hc.
Qed.

Lemma strip_ends (s : string) :
  (forall c, first_char (strip s) = Some c -> isspace c = false)
  /\ (forall c, last_char (strip s) = Some c -> isspace c = false).
Proof.
  unfold strip. split; intros c H.
  - apply rstrip_first in H. now apply lstrip_first in H.
  - now apply rstrip_last in H.
Qed.

Lemma strip_id (s : string) :
  (forall c, first_char s = Some c -> isspace c = false) ->
  (forall c, last_char s = Some c -> isspace c = false) ->
  strip s = s.
Proof.
  intros Hf Hl. unfold strip. rewrite (lstrip_id s Hf). now apply rstrip_id.
Qed.

Lemma strip_idempotent (s : string) : strip (strip s) = strip s.
Proof. apply strip_id; apply strip_ends. Qed.

Lemma lstrip_length (s : string) :
  (String.length (lstrip s) <= String.length s)%nat.
Proof.
  induction s as [|a s IH]; simpl; [lia|]. destruct (isspace a); simpl; lia.
Qed.

Lemma rstrip_length (s : string) :
  (String.length (rstrip s) <= String.length s)%nat.
Proof.
  induction s as [|a s IH]; [simpl; lia|].
  rewrite rstrip_cons. destruct (rstrip s); [destruct (isspace a)|];
    simpl in *; lia.
Qed.

Lemma strip_fixed (s : string) :
  strip s = s -> lstrip s = s /\ rstrip s = s.
Proof.
  intros H. assert (L : lstrip s = s).
  { pose proof (rstrip_length (lstrip s)) as Hr. unfold strip in H.
    rewrite H in Hr. destruct s as [|a s]; [reflexivity|]. simpl in *.
    destruct (isspace a); [|reflexivity].
    pose proof (lstrip_length s). lia. }
  split; [exact L|]. unfold strip in H. now rewrite L in H.
Qed.

Lemma rstrip_snoc_space (s : string) (c : ascii) :
  isspace c = true -> rstrip (s ++ String c "") = rstrip s.
Proof.
  intros Hc. induction s as [|a s IH].
  - simpl. now rewrite Hc.
  - change ((String a s) ++ String c "") with (String a (s ++ String c "")).
    now rewrite !rstrip_cons, IH.
Qed.

(** A stripped text between two white-space characters. *)
Lemma strip_between (body : string) (c d : ascii) :
  isspace c = true -> isspace d = true -> strip body = body ->
  strip (String c (body ++ String d "")) = body.
Proof.
  intros Hc Hd H. apply strip_fixed in H as [L R].
  unfold strip. simpl. rewrite Hc.
  destruct body as [|a body].
  - simpl. now rewrite Hd.
  - assert (Ha : isspace a = false).
    { simpl in L. destruct (isspace a) eqn:E; [|reflexivity].
      pose proof (lstrip_length body) as Hl. rewrite L in Hl. simpl in Hl.
      lia. }
    change ((String a body) ++ String d "")
      with (String a (body ++ String d "")).
    simpl lstrip. rewrite Ha.
    change (String a (body ++ String d ""))
      with ((String a body) ++ String d "").
    now rewrite rstrip_snoc_space.
Qed.

Lemma lstrip_spaces_app (ws s : string) :
  forallb isspace (chars ws) = true -> lstrip (ws ++ s) = lstrip s.
Proof.
  induction ws as [|c ws IH]; [reflexivity|]. simpl.
  intros H. apply andb_true_iff in H as [Hc Hws]. rewrite Hc. now apply IH.
Qed.

Lemma rstrip_app_spaces (s ws : string) :
  forallb isspace (chars ws) = true -> rstrip (s ++ ws) = rstrip s.
Proof.
  revert s. induction ws as [|c ws IH]; intros s H.
  - now rewrite append_nil_r.
  - simpl in H. apply andb_true_iff in H as [Hc Hws].
    replace (s ++ String c ws) with ((s ++ String c "") ++ ws)
      by now rewrite append_assoc.
    rewrite (IH _ Hws). now apply rstrip_snoc_space.
Qed.

(** White space around a text does not change what [strip] returns. *)
Lemma strip_padding (ws1 s ws2 : string) :
  forallb isspace (chars ws1) = true -> forallb isspace (chars ws2) = true ->
  strip (ws1 ++ s ++ ws2) = strip s.
Proof.
  intros H1 H2. unfold strip. rewrite (lstrip_spaces_app _ _ H1).
  induction s as [|a s IH].
  - simpl append. rewrite <- (append_nil_r ws2), (lstrip_spaces_app _ _ H2).
    reflexivity.
  - change ((String a s) ++ ws2) with (String a (s ++ ws2)). simpl lstrip.
    destruct (isspace a); [exact IH|].
    change (String a (s ++ ws2)) with ((String a s) ++ ws2).
    now apply rstrip_app_spaces.
Qed.

(** Replacing a one-character string by nothing deletes that character. *)
Lemma replace_char_chars (c : ascii) (s : string) (x : ascii) :
  In x (chars (replace (String c "") "" s)) <-> In x (chars s) /\ x <> c.
Proof.
  unfold replace. induction s as [|a s IH]; simpl; [tauto|].
  destruct (ascii_dec c a) as [->|Hne].
  - destruct s; simpl in *; rewrite IH; split.
    + tauto.
    + intros [[->|H] Hx]; tauto.
    + tauto.
    + intros [[->|H] Hx]; tauto.
  - simpl. rewrite IH. split.
    + intros [->|[H Hx]]; split; auto.
    + tauto.
Qed.

Lemma replace_char_id (c : ascii) (s : string) :
  ~ In c (chars s) -> replace (String c "") "" s = s.
Proof.
  unfold replace. induction s as [|a s IH]; simpl; [reflexivity|].
  intros H. destruct (ascii_dec c a) as [->|Hne]; [tauto|].
  rewrite IH; tauto.
Qed.

End StripFacts.

(** ** Quote characters in the sanitized command *)

Lemma sanitize_quote_free (raw : string) :
  ~ In dquote (chars (sanitize raw)) /\ ~ In squote (chars (sanitize raw)).
Proof.
  unfold sanitize.
  set (command := if contains fence (strip raw) then _ else _).
  split; intros H; apply strip_incl in H; apply replace_char_chars in H.
  - destruct H as [H _]. apply replace_char_chars in H. tauto.
  - tauto.
Qed.

(** C10.  Whatever the generator wrote, the sanitized command holds no
    double quote and no single quote at any position: [replace] deletes
    every occurrence, also those inside the rule text, as in the quoted
    comment of the two examples. *)
Theorem sanitize_has_no_quotes :
  (forall raw : string,
      ~ In dquote (chars (sanitize raw)) /\ ~ In squote (chars (sanitize raw)))
  /\ sanitize ("iptables -A OUTPUT -m comment --comment "
               ++ String squote ("to h2" ++ String squote " -j DROP"))
     = "iptables -A OUTPUT -m comment --comment to h2 -j DROP"
  /\ sanitize ("iptables -A OUTPUT -m comment --comment "
               ++ String dquote ("to h2" ++ String dquote " -j DROP"))
     = "iptables -A OUTPUT -m comment --comment to h2 -j DROP".
Proof.
  split; [exact sanitize_quote_free|split; reflexivity].
Qed.

(** ** Strings: scanning for a separator *)

Section ScanFacts.

(** A character that does not occur in [sub] ends every attempt to match
    [sub] across it. *)
Lemma prefix_sep_char (sub s r : string) (c : ascii) :
  ~ In c (chars sub) -> prefix sub (s ++ String c r) = prefix sub s.
Proof.
  revert s. induction sub as [|a sub IH]; intros s Hc.
  - now destruct s.
  - destruct s as [|b s].
    + simpl append. rewrite prefix_cons.
      destruct (Ascii.eqb a c) eqn:E; [|reflexivity].
      apply Ascii.eqb_eq in E. subst. exfalso. apply Hc. now left.
    + change ((String b s) ++ String c r) with (String b (s ++ String c r)).
      rewrite !prefix_cons, IH; [reflexivity|].
      intros H. apply Hc. now right.
Qed.

Lemma contains_sep_char (sub s r : string) (c : ascii) :
  ~ In c (chars sub) -> sub <> "" ->
  contains sub (s ++ String c r) = contains sub s || contains sub r.
Proof.
  intros Hc Hne. induction s as [|b s IH].
  - pose proof (prefix_sep_char sub "" r c Hc) as E. simpl append in *.
    rewrite contains_unfold, E.
    destruct sub; [contradiction | reflexivity].
  - change ((String b s) ++ String c r) with (String b (s ++ String c r)).
    rewrite !contains_unfold, IH.
    change (String b (s ++ String c r)) with ((String b s) ++ String c r).
    rewrite (prefix_sep_char sub (String b s) r c Hc).
    now rewrite orb_assoc.
Qed.

Lemma split_scan_skip (sep x r : string) :
  split_scan sep (x ++ r) (String.length x) = split_scan sep r 0.
Proof. induction x as [|a x IH]; [reflexivity | exact IH]. Qed.

Lemma split_scan_match (sep r : string) :
  sep <> "" ->
  split_scan sep (sep ++ r) 0 =
  let '(p, ps) := split_scan sep r 0 in (EmptyString, p :: ps).
Proof.
  intros Hne. destruct sep as [|a sep]; [contradiction|].
  change ((String a sep) ++ r) with (String a (sep ++ r)).
  cbn [split_scan].
  change (String a (sep ++ r)) with ((String a sep) ++ r).
  rewrite prefix_append.
  replace (String.length (String a sep) - 1)%nat with (String.length sep)
    by (simpl; lia).
  now rewrite split_scan_skip.
Qed.

Lemma split_scan_pass (sep s r : string) (c : ascii) :
  contains sep s = false -> ~ In c (chars sep) -> sep <> "" ->
  split_scan sep (s ++ String c r) 0 =
  let '(p, ps) := split_scan sep r 0 in (s ++ String c p, ps).
Proof.
  intros Hs Hc Hne. induction s as [|b s IH].
  - pose proof (prefix_sep_char sep "" r c Hc) as E. simpl append in *.
    cbn [split_scan]. rewrite E.
    destruct sep; [contradiction|]. simpl prefix.
    now destruct (split_scan (String a sep) r 0).
  - apply contains_false_cons in Hs as [Hp Hs].
    change ((String b s) ++ String c r) with (String b (s ++ String c r)).
    cbn [split_scan].
    change (String b (s ++ String c r)) with ((String b s) ++ String c r).
    rewrite (prefix_sep_char sep (String b s) r c Hc), Hp.
    change ((String b s) ++ String c r) with (String b (s ++ String c r)).
    rewrite (IH Hs). now destruct (split_scan sep r 0).
Qed.

Lemma replace_scan_skip (old new x r : string) :
  replace_scan old new (x ++ r) (String.length x) = replace_scan old new r 0.
Proof. induction x as [|a x IH]; [reflexivity | exact IH]. Qed.

Lemma replace_scan_match (old new r : string) :
  old <> "" ->
  replace_scan old new (old ++ r) 0 = new ++ replace_scan old new r 0.
Proof.
  intros Hne. destruct old as [|a old]; [contradiction|].
  change ((String a old) ++ r) with (String a (old ++ r)).
  cbn [replace_scan].
  change (String a (old ++ r)) with ((String a old) ++ r).
  rewrite prefix_append.
  replace (String.length (String a old) - 1)%nat with (String.length old)
    by (simpl; lia).
  now rewrite replace_scan_skip.
Qed.

Lemma replace_scan_id (old new s : string) :
  contains old s = false -> replace_scan old new s 0 = s.
Proof.
  induction s as [|b s IH]; intros H; [reflexivity|].
  apply contains_false_cons in H as [Hp Hs].
  cbn [replace_scan]. now rewrite Hp, IH.
Qed.

End ScanFacts.

(** ** The clean-up of the generated text *)

Section SanitizeFacts.

Lemma contains_char_false (c : ascii) (s : string) :
  contains (String c "") s = false -> ~ In c (chars s).
Proof.
  induction s as [|a s IH]; intros H; [simpl; tauto|].
  apply contains_false_cons in H as [Hp Hs]. rewrite prefix_cons in Hp.
  simpl. intros [->|Hin].
  - now rewrite Ascii.eqb_refl, prefix_nil_l in Hp.
  - now apply IH.
Qed.

Lemma clean_rule_inv (body : string) :
  clean_rule body = true ->
  contains fence body = false /\ contains "sh" body = false
  /\ ~ In dquote (chars body) /\ ~ In squote (chars body)
  /\ strip body = body.
Proof.
  unfold clean_rule. rewrite !andb_true_iff, !negb_true_iff.
  intros [[[[Hf Hs] Hd] Hq] He]. repeat split; auto.
  - now apply contains_char_false.
  - now apply contains_char_false.
  - now apply String.eqb_eq.
Qed.

Lemma replace_char_append (c : ascii) (s t : string) :
  replace (String c "") "" (s ++ t)
  = replace (String c "") "" s ++ replace (String c "") "" t.
Proof.
  unfold replace. induction s as [|a s IH]; [reflexivity|].
  change ((String a s) ++ t) with (String a (s ++ t)).
  cbn [replace_scan]. rewrite !prefix_cons, !prefix_nil_l, !andb_true_r.
  destruct (Ascii.eqb c a); simpl; now rewrite IH.
Qed.

(** A fenced text: the part between the two fences is kept, then the
    shell names, quotes and outer white space are removed from it. *)
Lemma sanitize_fenced (inner : string) (c : ascii) :
  contains fence inner = false -> c <> backtick ->
  sanitize (fence ++ inner ++ String c fence)
  = strip (replace (String squote "") ""
             (replace (String dquote "") ""
                (strip (replace "sh" ""
                          (replace "bash" "" (inner ++ String c "")))))).
Proof.
  intros Hin Hc. unfold sanitize.
  assert (Hnotin : ~ In c (chars fence)).
  { simpl. intros [H|[H|[H|[]]]]; apply Hc; now rewrite <- H. }
  assert (Hstrip : strip (fence ++ inner ++ String c fence)
                   = fence ++ inner ++ String c fence).
  { apply strip_id.
    - simpl. now intros x [= <-].
    - intros x.
      replace (fence ++ inner ++ String c fence)
        with ((fence ++ inner ++ String c "") ++ fence)
        by now rewrite !append_assoc.
      rewrite last_char_append by discriminate. simpl. now intros [= <-]. }
  rewrite Hstrip.
  assert (Hc1 : contains fence (fence ++ inner ++ String c fence) = true)
    by apply (contains_intro fence "").
  rewrite Hc1. unfold split.
  rewrite split_scan_match by discriminate.
  rewrite (split_scan_pass fence inner fence c Hin Hnotin) by discriminate.
  reflexivity.
Qed.

Lemma contains_between (sub body : string) (c d : ascii) :
  ~ In c (chars sub) -> ~ In d (chars sub) -> sub <> "" ->
  contains sub (String c (body ++ String d "")) = contains sub body.
Proof.
  intros Hc Hd Hne.
  pose proof (contains_sep_char sub "" (body ++ String d "") c Hc Hne) as E.
  simpl append in E. rewrite E, (contains_sep_char sub body "" d Hd Hne).
  destruct sub; [contradiction|]. simpl. now rewrite !orb_false_r.
Qed.

Lemma not_in_chars (c : ascii) (s : string) :
  forallb (fun x => negb (Ascii.eqb c x)) (chars s) = true -> ~ In c (chars s).
Proof.
  rewrite forallb_forall. intros H Hin. specialize (H c Hin).
  now rewrite Ascii.eqb_refl in H.
Qed.

(** A clean rule inside a fenced block, with or without the name of the
    shell after the opening fence. *)
Lemma sanitize_wrapped (tag body : string) :
  In tag [""; "bash"; "sh"] -> clean_rule body = true ->
  sanitize (fence ++ tag ++ String nl body ++ String nl fence) = body.
Proof.
  intros Htag Hclean.
  destruct (clean_rule_inv body Hclean) as (Hf & Hs & Hd & Hq & He).
  assert (Hb : contains "bash" body = false).
  { destruct (contains "bash" body) eqn:E; [|reflexivity].
    apply (contains_suffix_of_needle "ba" "sh") in E. congruence. }
  remember (String nl (body ++ String nl "")) as mid eqn:Emid.
  assert (Hmid_sh : contains "sh" mid = false).
  { subst mid. rewrite contains_between; auto;
      try (apply not_in_chars; reflexivity); discriminate. }
  assert (Hmid_bash : contains "bash" mid = false).
  { subst mid. rewrite contains_between; auto;
      try (apply not_in_chars; reflexivity); discriminate. }
  replace (fence ++ tag ++ String nl body ++ String nl fence)
    with (fence ++ (tag ++ String nl body) ++ String nl fence)
    by now rewrite (append_assoc tag).
  rewrite sanitize_fenced; [| |discriminate].
  - replace ((tag ++ String nl body) ++ String nl "") with (tag ++ mid)
      by (subst mid; now rewrite append_assoc).
    assert (E : replace "sh" "" (replace "bash" "" (tag ++ mid)) = mid).
    { unfold replace.
      destruct Htag as [<-|[<-|[<-|[]]]].
      - simpl append.
        now rewrite (replace_scan_id "bash" "" mid Hmid_bash),
          (replace_scan_id "sh" "" mid Hmid_sh).
      - rewrite replace_scan_match by discriminate. simpl append.
        now rewrite (replace_scan_id "bash" "" mid Hmid_bash),
          (replace_scan_id "sh" "" mid Hmid_sh).
      - rewrite (replace_scan_id "bash" "" ("sh" ++ mid)).
        + rewrite replace_scan_match by discriminate. simpl append.
          now rewrite (replace_scan_id "sh" "" mid Hmid_sh).
        + subst mid.
          rewrite (contains_sep_char "bash" "sh" (body ++ String nl "") nl);
            [|apply not_in_chars; reflexivity|discriminate].
          rewrite (contains_sep_char "bash" body "" nl);
            [|apply not_in_chars; reflexivity|discriminate].
          now rewrite Hb. }
    rewrite E. subst mid. rewrite strip_between; auto.
    now rewrite (replace_char_id dquote body Hd),
      (replace_char_id squote body Hq).
  - rewrite (contains_sep_char fence tag body nl);
      [|apply not_in_chars; reflexivity|discriminate].
    rewrite Hf. now destruct Htag as [<-|[<-|[<-|[]]]].
Qed.

(** A clean rule without any wrapping is returned as it is. *)
Lemma sanitize_clean (body : string) :
  clean_rule body = true -> sanitize body = body.
Proof.
  intros Hclean.
  destruct (clean_rule_inv body Hclean) as (Hf & Hs & Hd & Hq & He).
  unfold sanitize.
  now rewrite He, Hf, (replace_char_id dquote body Hd),
    (replace_char_id squote body Hq).
Qed.

(** A clean rule between two quote characters. *)
Lemma sanitize_quoted (q : ascii) (body : string) :
  q = dquote \/ q = squote -> clean_rule body = true ->
  sanitize (String q (body ++ String q "")) = body.
Proof.
  intros Hq' Hclean.
  destruct (clean_rule_inv body Hclean) as (Hf & Hs & Hd & Hq & He).
  assert (Hsp : isspace q = false) by (destruct Hq' as [->| ->]; reflexivity).
  unfold sanitize.
  assert (E : strip (String q (body ++ String q ""))
              = String q (body ++ String q "")).
  { apply strip_id.
    - simpl. now intros c [= <-].
    - intros c.
      change (String q (body ++ String q ""))
        with ((String q body) ++ String q "").
      rewrite last_char_append by discriminate. simpl. now intros [= <-]. }
  rewrite E.
  assert (N : contains fence (String q (body ++ String q "")) = false).
  { rewrite contains_between; auto; try discriminate;
      destruct Hq' as [->| ->]; apply not_in_chars; reflexivity. }
  rewrite N.
  change (String q (body ++ String q ""))
    with ((String q "") ++ body ++ String q "").
  rewrite !replace_char_append.
  rewrite (replace_char_id dquote body), (replace_char_id squote body) by auto.
  destruct Hq' as [->| ->]; simpl; now rewrite append_nil_r.
Qed.

End SanitizeFacts.

(** C7.  [sanitize] is a function of the raw text alone.  It takes a clean
    rule out of a fenced block, together with the shell name [bash] or [sh]
    that follows the opening fence; of any fenced text without an inner
    fence it keeps what is cleaned from the inner text alone; it takes a
    clean rule out of a pair of quote characters; it leaves a clean rule as
    it is; white space around the raw text makes no difference.  On every
    input the result has no white space and no quote character at either
    end.  The result can be empty, and then the loop body goes on to the
    next attempt as it does when no command was generated. *)
Theorem sanitize_cleans_generated_text :
  (forall tag body,
      In tag [""; "bash"; "sh"] -> clean_rule body = true ->
      sanitize (fence ++ tag ++ String nl body ++ String nl fence) = body)
  /\ (forall inner c,
        contains fence inner = false -> c <> backtick ->
        sanitize (fence ++ inner ++ String c fence)
        = strip (replace (String squote "") ""
                   (replace (String dquote "") ""
                      (strip (replace "sh" ""
                                (replace "bash" ""
                                   (inner ++ String c "")))))))
  /\ (forall q body,
        q = dquote \/ q = squote -> clean_rule body = true ->
        sanitize (String q (body ++ String q "")) = body)
  /\ (forall body, clean_rule body = true -> sanitize body = body)
  /\ (forall ws1 raw ws2,
        forallb isspace (chars ws1) = true ->
        forallb isspace (chars ws2) = true ->
        sanitize (ws1 ++ raw ++ ws2) = sanitize raw)
  /\ (forall raw,
        strip (sanitize raw) = sanitize raw
        /\ forall c,
            first_char (sanitize raw) = Some c
            \/ last_char (sanitize raw) = Some c ->
            isspace c = false /\ c <> dquote /\ c <> squote)
  /\ sanitize "" = ""
  /\ sanitize (fence ++ "bash" ++ fence) = ""
  /\ (forall (T : Testbed) intent src dst attempt fb h content,
        completion_oracle h (user_message intent fb) = Some content ->
        sanitize content = "" ->
        attempt_body intent src dst attempt fb h =
        (Continue fb,
         {| a_index := attempt; a_feedback := fb; a_start := h;
            a_command := Some ""; a_probe := None;
            a_end := Completion (user_message intent fb) (Some content) :: h |},
         Completion (user_message intent fb) (Some content) :: h)).
Proof.
  split; [exact sanitize_wrapped|].
  split; [exact sanitize_fenced|].
  split; [exact sanitize_quoted|].
  split; [exact sanitize_clean|].
  split.
  { intros ws1 raw ws2 H1 H2. unfold sanitize.
    now rewrite (strip_padding ws1 raw ws2 H1 H2). }
  split; [|split; [reflexivity|split; [reflexivity|]]].
  - intros raw.
    assert (Hends : forall c,
               first_char (sanitize raw) = Some c
               \/ last_char (sanitize raw) = Some c ->
               isspace c = false /\ In c (chars (sanitize raw))).
    { intros c [H|H]; (split; [|auto using first_char_in, last_char_in]);
        revert H; unfold sanitize; apply strip_ends. }
    split.
    + unfold sanitize. apply strip_idempotent.
    + intros c H. destruct (Hends c H) as [Hsp Hin]. split; [exact Hsp|].
      destruct (sanitize_quote_free raw) as [Hd Hq].
      split; intros ->; contradiction.
  - intros T intent src dst attempt fb h content Hc Hs.
    apply attempt_body_skip; [|reflexivity].
    now rewrite generate_network_command_eq, Hc, <- Hs.
Qed.

Lemma sanitize_cleans_generated_text_witness :
  sanitize (fence ++ "bash" ++ String nl drop_rule ++ String nl fence)
  = drop_rule
  /\ sanitize (String dquote (drop_rule ++ String dquote "")) = drop_rule
  /\ sanitize drop_rule = drop_rule
  /\ sanitize (String nl " " ++ drop_rule ++ String nl "") = drop_rule
  /\ fst (fst (@attempt_body empty_block_bed
                 "Block traffic from h1 to h2" "h1" "h2" 1 None []))
     = Continue None.
Proof.
  destruct sanitize_cleans_generated_text
    as (W & _ & Q & C & P & _ & _ & _ & S).
  split; [|split; [|split; [|split]]].
  - apply W; [simpl; auto | reflexivity].
  - apply Q; [now left | reflexivity].
  - apply C. reflexivity.
  - rewrite (P (String nl " ") drop_rule (String nl "") eq_refl eq_refl).
    apply C. reflexivity.
  - rewrite (S empty_block_bed "Block traffic from h1 to h2" "h1" "h2" 1
               None [] "```bash```" eq_refl eq_refl).
    reflexivity.
Defined.

(** ** The attempt loop *)

Section LoopFacts.
Context {T : Testbed}.
Variables intent src dst : string.

Lemma for_attempts_cons (attempt : Z) (rest : list Z) (fb : option string)
    (h : History) :
  for_attempts intent src dst (attempt :: rest) fb h =
  let '(step, rec, h1) := attempt_body intent src dst attempt fb h in
  match step with
  | Return r => (Some r, [rec], h1)
  | Continue fb' =>
      let '(r, log, h2) := for_attempts intent src dst rest fb' h1 in
      (r, rec :: log, h2)
  end.
Proof.
  cbn [for_attempts]. unfold bind at 1.
  destruct (attempt_body intent src dst attempt fb h) as [[step rec] h1].
  destruct step as [fb'|r]; [|reflexivity].
  unfold bind, ret.
  now destruct (for_attempts intent src dst rest fb' h1) as [[r log] h2].
Qed.

Lemma attempt_succeeded_step (attempt : Z) (fb : option string)
    (h h' : History) (step : Step) (rec : AttemptRecord) :
  attempt_body intent src dst attempt fb h = (step, rec, h') ->
  match step with
  | Return r =>
      attempt_succeeded intent rec = true
      /\ r = {| success := true; command := a_command rec;
                attempts := a_index rec |}
      /\ truthy (a_command rec) = true
  | Continue fb' =>
      attempt_succeeded intent rec = false
      /\ fb' = match loss_after rec with
               | Some l => Some (build_feedback src dst l)
               | None => fb
               end
  end.
Proof.
  intros H. apply attempt_body_step in H as (Hi & _ & _ & _ & H).
  unfold attempt_succeeded. destruct (loss_after rec) as [la|].
  - destruct H as [Ht H]. destruct (success_predicate intent la); subst; auto.
  - destruct H as [-> _]. auto.
Qed.

(** The log of the loop: numbered by the attempt numbers consumed, every
    attempt but the last not successful, and the last one successful exactly
    when the loop returned. *)
Lemma for_attempts_log (todo : list Z) (fb : option string) (h h' : History)
    (r : option IntentResult) (log : list AttemptRecord) :
  for_attempts intent src dst todo fb h = (r, log, h') ->
  map a_index log = firstn (List.length log) todo
  /\ match r with
     | Some res =>
         exists pre rec,
           log = (pre ++ [rec])%list
           /\ Forall (fun x => attempt_succeeded intent x = false) pre
           /\ attempt_succeeded intent rec = true
           /\ truthy (a_command rec) = true
           /\ res = {| success := true; command := a_command rec;
                       attempts := a_index rec |}
     | None =>
         List.length log = List.length todo
         /\ Forall (fun x => attempt_succeeded intent x = false) log
     end.
Proof.
  revert fb h h' r log. induction todo as [|attempt rest IH];
    intros fb h h' r log H.
  - inversion H; subst. simpl. auto.
  - rewrite for_attempts_cons in H.
    destruct (attempt_body intent src dst attempt fb h)
      as [[step rec] h1] eqn:E.
    pose proof (attempt_body_step _ _ _ _ _ _ _ _ _ E) as (Hidx & _).
    apply attempt_succeeded_step in E.
    destruct step as [fb'|res].
    + destruct (for_attempts intent src dst rest fb' h1)
        as [[r' log'] h2] eqn:F.
      inversion H; subst. destruct E as [Hfail _].
      destruct (IH _ _ _ _ _ F) as [Hmap Hr].
      split; [simpl; now rewrite Hmap|].
      destruct r as [res|].
      * destruct Hr as (pre & last & -> & Hpre & Hlast & Hcmd & ->).
        exists (rec :: pre), last. repeat split; auto.
      * destruct Hr as [Hlen Hall]. split; [simpl; now rewrite Hlen|].
        now constructor.
    + inversion H; subst. destruct E as (Hs & -> & Hcmd).
      split; [reflexivity|]. exists [], rec. repeat split; auto.
Qed.

Lemma for_attempts_losses (todo : list Z) (fb : option string)
    (h h' : History) (r : option IntentResult) (log : list AttemptRecord) :
  for_attempts intent src dst todo fb h = (r, log, h') ->
  Forall (fun rec => forall l, loss_after rec = Some l -> l = 0 \/ l = 50) log.
Proof.
  revert fb h h' r log. induction todo as [|attempt rest IH];
    intros fb h h' r log H.
  - inversion H; subst. constructor.
  - rewrite for_attempts_cons in H.
    destruct (attempt_body intent src dst attempt fb h)
      as [[step rec] h1] eqn:E.
    pose proof (attempt_body_loss _ _ _ _ _ _ _ _ _ E) as Hloss.
    destruct step as [fb'|res].
    + destruct (for_attempts intent src dst rest fb' h1)
        as [[r' log'] h2] eqn:F.
      inversion H; subst. constructor; [exact Hloss | eauto].
    + inversion H; subst. constructor; [exact Hloss | constructor].
Qed.

End LoopFacts.

(** ** Ranges *)

Section RangeFacts.

Lemma firstn_seq (n start len : nat) :
  firstn n (seq start len) = seq start (Nat.min n len).
Proof.
  revert start len. induction n as [|n IH]; intros start [|len]; simpl; auto.
  now rewrite IH.
Qed.

Lemma length_range (a b : Z) : List.length (range a b) = Z.to_nat (b - a).
Proof. unfold range. now rewrite length_map, length_seq. Qed.

Lemma firstn_range (n : nat) (a b : Z) :
  (n <= Z.to_nat (b - a))%nat ->
  firstn n (range a b) = range a (a + Z.of_nat n).
Proof.
  intros H. unfold range. rewrite firstn_map, firstn_seq.
  replace (Nat.min n (Z.to_nat (b - a))) with n by lia.
  replace (Z.to_nat (a + Z.of_nat n - a)) with n by lia. reflexivity.
Qed.

Lemma range_snoc (a : Z) (n : nat) :
  range a (a + Z.of_nat (S n))
  = (range a (a + Z.of_nat n) ++ [a + Z.of_nat n])%list.
Proof.
  unfold range.
  replace (Z.to_nat (a + Z.of_nat (S n) - a)) with (S n) by lia.
  replace (Z.to_nat (a + Z.of_nat n - a)) with n by lia.
  now rewrite seq_S, map_app.
Qed.

End RangeFacts.

(** ** The attempt budget *)

(** C3.  For [max_attempts >= 1], [process_intent] makes the attempts
    numbered 1, 2, ... in order.  When it reports success, the last attempt
    of the log is the first one whose measurement satisfies the success
    predicate, [attempts] is its number, which lies between 1 and
    [max_attempts], and [command] is the command it deployed.  When it
    reports failure, exactly [max_attempts] attempts were made, none
    satisfied the success predicate, [attempts] is [max_attempts] and
    [command] is [None]. *)
Theorem process_intent_attempts (T : Testbed) (intent src dst : string)
    (max_attempts : Z) (h h' : History) (res : IntentResult)
    (log : list AttemptRecord) :
  1 <= max_attempts ->
  process_intent_log intent src dst max_attempts h = (res, log, h') ->
  process_intent intent src dst max_attempts h = (res, h')
  /\ map a_index log = range 1 (1 + Z.of_nat (List.length log))
  /\ if success res
     then exists pre rec,
            log = (pre ++ [rec])%list
            /\ Forall (fun x => attempt_succeeded intent x = false) pre
            /\ attempt_succeeded intent rec = true
            /\ attempts res = 1 + Z.of_nat (List.length pre)
            /\ a_index rec = attempts res
            /\ 1 <= attempts res <= max_attempts
            /\ command res = a_command rec
            /\ truthy (command res) = true
     else Z.of_nat (List.length log) = max_attempts
          /\ Forall (fun x => attempt_succeeded intent x = false) log
          /\ attempts res = max_attempts
          /\ command res = None.
Proof.
  intros Hmax H. split.
  { unfold process_intent, bind, ret. now rewrite H. }
  unfold process_intent_log, bind, ret in H.
  destruct (for_attempts intent src dst (range 1 (max_attempts + 1)) None h)
    as [[r log'] h1] eqn:F.
  apply for_attempts_log in F as [Hmap Hr].
  assert (Hlen : (List.length log' <= Z.to_nat max_attempts)%nat).
  { apply (f_equal (@List.length Z)) in Hmap.
    rewrite length_map, length_firstn, length_range in Hmap.
    replace (max_attempts + 1 - 1) with max_attempts in Hmap by lia. lia. }
  rewrite firstn_range in Hmap
    by (replace (max_attempts + 1 - 1) with max_attempts by lia; exact Hlen).
  destruct r as [res'|].
  - inversion H; subst. split; [exact Hmap|].
    destruct Hr as (pre & rec & -> & Hpre & Hrec & Hcmd & ->).
    cbn [success attempts command].
    exists pre, rec.
    rewrite length_app in Hmap, Hlen. cbn [List.length] in Hmap, Hlen.
    replace (List.length pre + 1)%nat with (S (List.length pre)) in Hmap by lia.
    rewrite range_snoc, map_app in Hmap. cbn [map] in Hmap.
    apply app_inj_tail in Hmap as [_ Hidx].
    repeat split; auto; lia.
  - inversion H; subst. split; [exact Hmap|]. cbn [success attempts command].
    destruct Hr as [Hl Hall]. rewrite length_range in Hl.
    repeat split; auto.
    replace (max_attempts + 1 - 1) with max_attempts in Hl by lia. lia.
Qed.

Lemma process_intent_attempts_witness :
  fst (@process_intent third_time_bed "Allow traffic from h1 to h2"
         "h1" "h2" 3 [])
  = {| success := true; command := Some drop_rule; attempts := 3 |}.
Proof.
  destruct (@process_intent_log third_time_bed "Allow traffic from h1 to h2"
              "h1" "h2" 3 [])
    as [[res log] h'] eqn:E.
  destruct (process_intent_attempts third_time_bed
              "Allow traffic from h1 to h2" "h1" "h2"
              3 [] h' res log ltac:(lia) E) as [P _].
  rewrite P. vm_compute in E. inversion E; subst. reflexivity.
Defined.

(** Since no output is classified as a loss of 100, no attempt for an intent
    with [block] in it ever satisfies the success predicate, whatever the
    generator and the network do: [process_intent] reports failure. *)
Corollary block_intent_never_verified (T : Testbed) (intent src dst : string)
    (max_attempts : Z) (h : History) :
  contains "block" (lower intent) = true ->
  success (fst (process_intent intent src dst max_attempts h)) = false.
Proof.
  intros Hb. unfold process_intent, process_intent_log, bind, ret.
  destruct (for_attempts intent src dst (range 1 (max_attempts + 1)) None h)
    as [[r log] h1] eqn:F.
  pose proof (for_attempts_losses _ _ _ _ _ _ _ _ _ F) as Hall.
  apply for_attempts_log in F as [_ Hr].
  destruct r as [res|]; [|reflexivity]. exfalso.
  destruct Hr as (pre & rec & -> & _ & Hs & _).
  apply Forall_app in Hall as [_ Hrec]. inversion Hrec as [|? ? Hl _]; subst.
  unfold attempt_succeeded in Hs.
  destruct (loss_after rec) as [l|]; [|discriminate].
  unfold success_predicate in Hs. rewrite Hb in Hs. apply Z.eqb_eq in Hs.
  destruct (Hl l eq_refl); lia.
Qed.

(** ** An attempt without a usable command *)

(** C5.  When the request raised, or the cleaned text is empty, the pass
    through the loop body makes no call but the request itself (no command
    runs on any host: nothing is deployed and nothing is probed), leaves the
    feedback as it was, and the loop goes on with the attempt numbers that
    are left: the attempt number is used up. *)
Theorem no_command_skips_attempt (T : Testbed) (intent src dst : string)
    (attempt : Z) (rest : list Z) (fb : option string) (h : History) :
  let msg := user_message intent fb in
  let content := completion_oracle h msg in
  let h1 := Completion msg content :: h in
  let rec := {| a_index := attempt; a_feedback := fb; a_start := h;
                a_command := option_map sanitize content; a_probe := None;
                a_end := h1 |} in
  content = None \/ (exists raw, content = Some raw /\ sanitize raw = "") ->
  generate_network_command intent fb h = (option_map sanitize content, h1)
  /\ (option_map sanitize content = None
      \/ option_map sanitize content = Some "")
  /\ attempt_body intent src dst attempt fb h = (Continue fb, rec, h1)
  /\ for_attempts intent src dst (attempt :: rest) fb h
     = (let '(r, log, h') := for_attempts intent src dst rest fb h1 in
        (r, rec :: log, h')).
Proof.
  intros msg content h1 rec H.
  assert (G : generate_network_command intent fb h
              = (option_map sanitize content, h1))
    by apply generate_network_command_eq.
  assert (N : option_map sanitize content = None
              \/ option_map sanitize content = Some "").
  { destruct H as [->|(raw & -> & Hs)]; simpl; [now left|right].
    now rewrite Hs. }
  assert (B : attempt_body intent src dst attempt fb h
              = (Continue fb, rec, h1)).
  { apply attempt_body_skip; [exact G|]. now destruct N as [-> | ->]. }
  repeat split; auto.
  now rewrite for_attempts_cons, B.
Qed.

Lemma no_command_skips_attempt_witness :
  @process_intent silent_bed "Block traffic from h1 to h2" "h1" "h2" 3 []
  = ({| success := false; command := None; attempts := 3 |},
     [Completion "User intent: Block traffic from h1 to h2" None;
      Completion "User intent: Block traffic from h1 to h2" (Some "```sh```");
      Completion "User intent: Block traffic from h1 to h2" None]).
Proof.
  unfold process_intent, process_intent_log, bind, ret.
  change (range 1 (3 + 1)) with [1; 2; 3].
  destruct (no_command_skips_attempt silent_bed
              "Block traffic from h1 to h2" "h1" "h2"
              1 [2; 3] None [] (or_introl eq_refl)) as (_ & _ & _ & ->).
  match goal with
  | |- context [for_attempts _ _ _ [2; 3] None ?h] =>
      destruct (no_command_skips_attempt silent_bed
                  "Block traffic from h1 to h2"
                  "h1" "h2" 2 [3] None h
                  (or_intror (ex_intro _ "```sh```" (conj eq_refl eq_refl))))
        as (_ & _ & _ & ->)
  end.
  match goal with
  | |- context [for_attempts _ _ _ [3] None ?h] =>
      destruct (no_command_skips_attempt silent_bed
                  "Block traffic from h1 to h2"
                  "h1" "h2" 3 [] None h (or_introl eq_refl))
        as (_ & _ & _ & ->)
  end.
  reflexivity.
Defined.

(** ** Feedback *)

Section FeedbackFacts.
Context {T : Testbed}.
Variables intent src dst : string.

Lemma attempt_body_generation (attempt : Z) (fb : option string)
    (h h' : History) (step : Step) (rec : AttemptRecord) :
  attempt_body intent src dst attempt fb h = (step, rec, h') ->
  after_generation rec
  = Completion (user_message intent fb)
      (completion_oracle h (user_message intent fb)) :: h.
Proof.
  intros H. pose proof (generate_network_command_eq intent fb h) as G.
  destruct (truthy (option_map sanitize
                      (completion_oracle h (user_message intent fb)))) eqn:Ht.
  - destruct (option_map sanitize _) as [cmd|] eqn:Ec; [|discriminate].
    pose proof (attempt_body_deploy intent src dst attempt fb h _ cmd G Ht)
      as E.
    destruct (test_connectivity src dst _) as [[lb sb] h2].
    destruct (node_cmd src cmd h2) as [o h3].
    destruct (test_connectivity src dst h3) as [[la sa] h4].
    rewrite E in H.
    destruct (success_predicate intent la); inversion H; subst; reflexivity.
  - rewrite (attempt_body_skip _ _ _ _ _ _ _ _ G Ht) in H.
    inversion H; subst; reflexivity.
Qed.

(** The feedback handed to the generator by each attempt of the loop. *)
Lemma for_attempts_feedback (todo : list Z) (fb0 : option string)
    (h h' : History) (r : option IntentResult) (log : list AttemptRecord) :
  for_attempts intent src dst todo fb0 h = (r, log, h') ->
  forall pre rec post,
    log = (pre ++ rec :: post)%list ->
    Forall (fun x => attempt_succeeded intent x = false) pre
    /\ a_feedback rec = match last_measured pre with
                        | Some l => Some (build_feedback src dst l)
                        | None => fb0
                        end
    /\ after_generation rec
       = Completion (user_message intent (a_feedback rec))
           (completion_oracle (a_start rec)
              (user_message intent (a_feedback rec))) :: a_start rec.
Proof.
  revert fb0 h h' r log. induction todo as [|attempt rest IH];
    intros fb0 h h' r log H pre rec post Hlog.
  - inversion H; subst. now destruct pre.
  - rewrite for_attempts_cons in H.
    destruct (attempt_body intent src dst attempt fb0 h)
      as [[step rec0] h1] eqn:E.
    pose proof (attempt_body_generation _ _ _ _ _ _ E) as Hgen.
    pose proof (attempt_body_step _ _ _ _ _ _ _ _ _ E) as (_ & Hfb & Hst & _).
    apply attempt_succeeded_step in E.
    destruct step as [fb'|res].
    + destruct (for_attempts intent src dst rest fb' h1)
        as [[r' log'] h2] eqn:F.
      subst log. inversion H as [[Hr Hlog Hh]]. clear H.
      destruct pre as [|x pre]; simpl in Hlog; inversion Hlog; subst.
      * simpl. rewrite Hgen. repeat split; auto.
      * destruct (IH _ _ _ _ _ F pre rec post eq_refl) as (Ha & Hf & Hg).
        destruct E as [Hx ->].
        split; [now constructor|]. split; [|exact Hg]. rewrite Hf. simpl.
        now destruct (last_measured pre), (loss_after x).
    + subst log. inversion H as [[Hr Hlog Hh]]. clear H.
      destruct pre as [|x pre]; simpl in Hlog; inversion Hlog; subst.
      * simpl. rewrite Hgen. repeat split; auto.
      * now destruct pre.
Qed.

Lemma build_feedback_text (l : Z) :
  contains "fully blocked" (build_feedback src dst l) = true
  /\ contains ("between " ++ src ++ " and " ++ dst) (build_feedback src dst l)
     = true
  /\ contains ("measured " ++ str l ++ "% packet loss")
       (build_feedback src dst l) = true.
Proof.
  unfold build_feedback. split; [|split].
  - apply (contains_intro "fully blocked" "Expected traffic to be ").
  - replace ("Expected traffic to be fully blocked between " ++ src ++ " and "
             ++ dst ++ ", " ++ "but after applying the rule, measured "
             ++ str l ++ "% packet loss.")
      with ("Expected traffic to be fully blocked "
            ++ ("between " ++ src ++ " and " ++ dst)
            ++ ", " ++ "but after applying the rule, measured "
            ++ str l ++ "% packet loss.").
    + apply contains_intro.
    + simpl. now rewrite !append_assoc.
  - replace ("Expected traffic to be fully blocked between " ++ src ++ " and "
             ++ dst ++ ", " ++ "but after applying the rule, measured "
             ++ str l ++ "% packet loss.")
      with (("Expected traffic to be fully blocked between " ++ src ++ " and "
             ++ dst ++ ", " ++ "but after applying the rule, ")
            ++ ("measured " ++ str l ++ "% packet loss") ++ ".").
    + apply contains_intro.
    + simpl. rewrite !append_assoc. simpl. now rewrite !append_assoc.
Qed.

Lemma user_message_carries (f : string) :
  f <> "" -> contains f (user_message intent (Some f)) = true.
Proof.
  intros Hf. destruct f as [|a f]; [contradiction|].
  replace (user_message intent (Some (String a f)))
    with (("User intent: " ++ intent ++ String nl (String nl "")
           ++ "The previous command FAILED in testing. Details: ")
          ++ String a f ++ String nl ""
          ++ "Generate a different iptables command that might work better.").
  - apply contains_intro.
  - unfold user_message. now rewrite !append_assoc.
Qed.

Lemma build_feedback_nonempty (l : Z) : build_feedback src dst l <> "".
Proof. discriminate. Qed.

End FeedbackFacts.

(** C8.  In a run of [process_intent], every attempt before a further
    attempt failed, and the feedback an attempt hands to the generator is
    [None] while no earlier attempt reached verification, and otherwise the
    sentence built from the loss measured by the most recent earlier attempt
    that did: nothing of an older sentence is kept.  The request of the
    attempt carries that feedback in its user message.  The sentence names
    the expected behaviour (fully blocked), the two endpoints and the
    measured loss. *)
Theorem feedback_is_latest_failure (T : Testbed) (intent src dst : string)
    (max_attempts : Z) (h h' : History) (res : IntentResult)
    (log : list AttemptRecord) :
  process_intent_log intent src dst max_attempts h = (res, log, h') ->
  (forall pre rec post,
      log = (pre ++ rec :: post)%list ->
      Forall (fun x => attempt_succeeded intent x = false) pre
      /\ a_feedback rec
         = option_map (build_feedback src dst) (last_measured pre)
      /\ after_generation rec
         = Completion (user_message intent (a_feedback rec))
             (completion_oracle (a_start rec)
                (user_message intent (a_feedback rec))) :: a_start rec
      /\ (forall f, a_feedback rec = Some f ->
                    contains f (user_message intent (a_feedback rec)) = true))
  /\ (forall l,
        contains "fully blocked" (build_feedback src dst l) = true
        /\ contains ("between " ++ src ++ " and " ++ dst)
             (build_feedback src dst l) = true
        /\ contains ("measured " ++ str l ++ "% packet loss")
             (build_feedback src dst l) = true).
Proof.
  intros H. split; [|intros l; apply build_feedback_text].
  intros pre rec post Hlog.
  unfold process_intent_log, bind, ret in H.
  destruct (for_attempts intent src dst (range 1 (max_attempts + 1)) None h)
    as [[r log'] h1] eqn:F.
  assert (log' = log) by (destruct r; now inversion H). subst log'.
  destruct (for_attempts_feedback intent src dst _ _ _ _ _ _ F
              pre rec post Hlog) as (Ha & Hf & Hg).
  assert (Hfb : a_feedback rec
                = option_map (build_feedback src dst) (last_measured pre))
    by (rewrite Hf; now destruct (last_measured pre)).
  repeat split; auto.
  intros f Hsome. rewrite Hsome. apply user_message_carries.
  rewrite Hfb in Hsome. destruct (last_measured pre); [|discriminate].
  inversion Hsome. apply build_feedback_nonempty.
Qed.

Lemma feedback_is_latest_failure_witness :
  option_map a_feedback
    (nth_error
       (snd (fst (@process_intent_log retry_bed "Block traffic from h1 to h2"
                    "h1" "h2" 3 []))) 2)
  = Some (Some (build_feedback "h1" "h2" 50)).
Proof.
  destruct (@process_intent_log retry_bed "Block traffic from h1 to h2"
              "h1" "h2" 3 [])
    as [[res log] h'] eqn:E.
  destruct (feedback_is_latest_failure retry_bed _ _ _ _ _ _ _ _ E) as [F _].
  vm_compute in E. inversion E; subst. cbn [fst snd nth_error option_map].
  match goal with
  | |- context [a_feedback ?r3] =>
      match type of F with
      | context [([?r1; ?r2; r3] = _)%list] =>
          destruct (F [r1; r2] r3 [] eq_refl) as (_ & Hfb & _)
      end
  end.
  rewrite Hfb. reflexivity.
Defined.

(** ** The rule table of the source host *)

Section RuleTable.
Context {T : Testbed}.

(** The rules in force on a host after a history of calls.  Of the command
    dialect only this is assumed (it is the contract of the deployer's
    reset): flushing a host leaves it without rules, and a completion
    request does not touch any host. *)
Variable rules : History -> string -> list string.
Hypothesis flush_clears : forall h host out,
    rules (Cmd host "iptables -F" out :: h) host = [].
Hypothesis completion_keeps : forall h msg content host,
    rules (Completion msg content :: h) host = rules h host.

Variables intent src dst : string.

Lemma attempt_body_rules (attempt : Z) (fb : option string)
    (h h' : History) (step : Step) (rec : AttemptRecord) :
  attempt_body intent src dst attempt fb h = (step, rec, h') ->
  rules (after_generation rec) src = rules h src
  /\ (attempt_succeeded intent rec = false ->
      rules h' src = if deployed rec then [] else rules h src).
Proof.
  intros H. split.
  { rewrite (attempt_body_generation _ _ _ _ _ _ _ _ _ H).
    apply completion_keeps. }
  pose proof (generate_network_command_eq intent fb h) as G.
  destruct (truthy (option_map sanitize
                      (completion_oracle h (user_message intent fb)))) eqn:Ht.
  - destruct (option_map sanitize _) as [cmd|] eqn:Ec; [|discriminate].
    pose proof (attempt_body_deploy intent src dst attempt fb h _ cmd G Ht)
      as E.
    destruct (test_connectivity src dst _) as [[lb sb] h2].
    destruct (node_cmd src cmd h2) as [o h3].
    destruct (test_connectivity src dst h3) as [[la sa] h4].
    rewrite E in H. unfold attempt_succeeded, loss_after, deployed.
    destruct (success_predicate intent la) eqn:Hs; inversion H; subst; simpl.
    + rewrite Hs. discriminate.
    + intros _. apply flush_clears.
  - rewrite (attempt_body_skip _ _ _ _ _ _ _ _ G Ht) in H.
    inversion H; subst. unfold deployed. simpl. intros _.
    apply completion_keeps.
Qed.

Lemma for_attempts_rules (todo : list Z) (fb0 : option string)
    (h h' : History) (r : option IntentResult) (log : list AttemptRecord) :
  for_attempts intent src dst todo fb0 h = (r, log, h') ->
  forall pre rec post,
    log = (pre ++ rec :: post)%list ->
    rules (a_start rec) src
    = (if existsb deployed pre then [] else rules h src)
    /\ rules (after_generation rec) src
       = (if existsb deployed pre then [] else rules h src)
    /\ (deployed rec = true -> attempt_succeeded intent rec = false ->
        rules (a_end rec) src = []).
Proof.
  revert fb0 h h' r log. induction todo as [|attempt rest IH];
    intros fb0 h h' r log H pre rec post Hlog.
  - inversion H; subst. now destruct pre.
  - rewrite for_attempts_cons in H.
    destruct (attempt_body intent src dst attempt fb0 h)
      as [[step rec0] h1] eqn:E.
    pose proof (attempt_body_rules _ _ _ _ _ _ E) as [Hgen Hend].
    pose proof (attempt_body_step _ _ _ _ _ _ _ _ _ E)
      as (_ & _ & Hst & Hen & _).
    apply attempt_succeeded_step in E.
    assert (Hhead : rules (a_start rec0) src = rules h src
                    /\ rules (after_generation rec0) src = rules h src
                    /\ (deployed rec0 = true ->
                        attempt_succeeded intent rec0 = false ->
                        rules (a_end rec0) src = [])).
    { rewrite Hst, Hen. repeat split; auto.
      intros Hd Hf. rewrite (Hend Hf), Hd. reflexivity. }
    destruct step as [fb'|res].
    + destruct (for_attempts intent src dst rest fb' h1)
        as [[r' log'] h2] eqn:F.
      subst log. inversion H as [[Hr Hlog Hh]]. clear H.
      destruct pre as [|x pre]; simpl in Hlog; inversion Hlog; subst.
      * exact Hhead.
      * destruct (IH _ _ _ _ _ F pre rec post eq_refl) as (Hs & Hg & He).
        destruct E as [Hx _]. rewrite (Hend Hx) in Hs, Hg.
        cbn [existsb]. destruct (deployed x); simpl; repeat split; auto;
          now destruct (existsb deployed pre).
    + subst log. inversion H as [[Hr Hlog Hh]]. clear H.
      destruct pre as [|x pre]; simpl in Hlog; inversion Hlog; subst.
      * exact Hhead.
      * now destruct pre.
Qed.

(** C4.  In a run of [process_intent], an attempt that deployed a command
    and failed leaves the source host without rules; and when any earlier
    attempt of the run deployed a command, the source host has no rules
    both when the generation step of an attempt starts and at its baseline
    test.  (When no earlier attempt deployed anything, the rules are those
    the run started with.) *)
Theorem rules_reset_between_attempts (max_attempts : Z) (h h' : History)
    (res : IntentResult) (log : list AttemptRecord) :
  process_intent_log intent src dst max_attempts h = (res, log, h') ->
  forall pre rec post,
    log = (pre ++ rec :: post)%list ->
    rules (a_start rec) src
    = (if existsb deployed pre then [] else rules h src)
    /\ (forall hb lb la,
          a_probe rec = Some (hb, lb, la) ->
          rules hb src = if existsb deployed pre then [] else rules h src)
    /\ (deployed rec = true -> attempt_succeeded intent rec = false ->
        rules (a_end rec) src = []).
Proof.
  intros H pre rec post Hlog.
  unfold process_intent_log, bind, ret in H.
  destruct (for_attempts intent src dst (range 1 (max_attempts + 1)) None h)
    as [[r log'] h1] eqn:F.
  assert (log' = log) by (destruct r; now inversion H). subst log'.
  destruct (for_attempts_rules _ _ _ _ _ _ F pre rec post Hlog)
    as (Hs & Hg & He).
  repeat split; auto.
  intros hb lb la Hp. unfold after_generation in Hg. now rewrite Hp in Hg.
Qed.

(** Between two test cases [main] flushes the source host of the case just
    finished, so the next case starts after a flush of that host. *)
Lemma run_tests_flushes (test : TestCase) (rest : list TestCase)
    (h : History) :
  let '(result, h1) :=
    process_intent (t_intent test) (t_src test) (t_dst test) 3 h in
  let h2 := snd (node_cmd (t_src test) "iptables -F" h1) in
  rules h2 (t_src test) = []
  /\ run_tests (test :: rest) h
     = (let '(results, h3) := run_tests rest h2 in
        ((test, result) :: results, h3)).
Proof.
  cbn [run_tests]. unfold bind at 1.
  destruct (process_intent (t_intent test) (t_src test) (t_dst test) 3 h)
    as [result h1].
  split; [apply flush_clears|].
  unfold bind, ret, node_cmd. cbn [snd].
  now destruct (run_tests rest _) as [results h3].
Qed.

End RuleTable.

Lemma installed_rules_flush (h : History) (host out : string) :
  installed_rules (Cmd host "iptables -F" out :: h) host = [].
Proof. simpl. now rewrite String.eqb_refl. Qed.

Lemma installed_rules_completion (h : History) (msg : string)
    (content : option string) (host : string) :
  installed_rules (Completion msg content :: h) host = installed_rules h host.
Proof. reflexivity. Qed.

Lemma rules_reset_between_attempts_witness :
  option_map (fun rec => installed_rules (after_generation rec) "h1")
    (nth_error
       (snd (fst (@process_intent_log retry_bed "Block traffic from h1 to h2"
                    "h1" "h2" 3 []))) 2)
  = Some [].
Proof.
  destruct (@process_intent_log retry_bed "Block traffic from h1 to h2"
              "h1" "h2" 3 [])
    as [[res log] h'] eqn:E.
  pose proof (@rules_reset_between_attempts retry_bed installed_rules
                installed_rules_flush installed_rules_completion
                _ _ _ _ _ _ _ _ E) as F.
  vm_compute in E. inversion E; subst. cbn [fst snd nth_error option_map].
  match goal with
  | |- context [after_generation ?r3] =>
      match type of F with
      | context [([?r1; ?r2; r3] = _)%list] =>
          destruct (F [r1; r2] r3 [] eq_refl) as (_ & Hb & _)
      end
  end.
  unfold after_generation. cbn [a_probe].
  erewrite Hb by reflexivity. reflexivity.
Defined.

(** ** The summary *)

Section SummaryFacts.

Lemma fold_ones {A : Type} (l : list A) (acc : Z) :
  fold_left Z.add (map (fun _ => 1) l) acc = acc + Z.of_nat (List.length l).
Proof.
  revert acc. induction l as [|x l IH]; intros acc.
  - simpl. lia.
  - cbn [map fold_left List.length]. rewrite IH. lia.
Qed.

Lemma success_count_filter (results : list (TestCase * IntentResult)) :
  success_count results
  = Z.of_nat (List.length (filter (fun r => success (snd r)) results)).
Proof. unfold success_count. now rewrite fold_ones. Qed.

End SummaryFacts.

(** C9.  [success_count] is the number of results whose [success] is
    true.  The success rate of no results is [0.0]; otherwise it is the
    binary64 quotient of that count by the number of results, as a
    percentage (times 100).  For two results of which exactly one is a
    success it is exactly 50, as in the run of two test cases of which the
    first succeeds at its first attempt and the second fails three times. *)
Theorem success_rate_is_ratio :
  (forall results,
      success_count results
      = Z.of_nat (List.length (filter (fun r => success (snd r)) results)))
  /\ success_rate [] = S754_zero false
  /\ (forall results,
        results <> [] ->
        success_rate results
        = float_mul
            (float_div
               (float_of_int
                  (Z.of_nat
                     (List.length
                        (filter (fun r => success (snd r)) results))))
               (float_of_int (Z.of_nat (List.length results))))
            (float_of_int 100))
  /\ (forall r1 r2,
        success (snd r1) = negb (success (snd r2)) ->
        success_rate [r1; r2] = float_of_int 50)
  /\ map (fun r => (success (snd r), attempts (snd r)))
       (fst (@run_tests two_tests_bed two_tests []))
     = [(true, 1); (false, 3)]
  /\ success_rate (fst (@run_tests two_tests_bed two_tests []))
     = float_of_int 50.
Proof.
  split; [exact success_count_filter|]. split; [reflexivity|].
  split; [|split].
  - intros [|r results] H; [contradiction|].
    unfold success_rate. now rewrite success_count_filter.
  - intros r1 r2 H. unfold success_rate. rewrite success_count_filter.
    cbn [filter]. rewrite H. now destruct (success (snd r2)).
  - split; vm_compute; reflexivity.
Qed.

Lemma success_rate_is_ratio_witness :
  success_rate
    [({| t_intent := "Allow traffic from h1 to h3"; t_src := "h1";
         t_dst := "h3" |},
      {| success := true; command := Some "iptables -F"; attempts := 1 |});
     ({| t_intent := "Block traffic from h1 to h2"; t_src := "h1";
         t_dst := "h2" |},
      {| success := false; command := None; attempts := 3 |})]
  = float_of_int 50.
Proof.
  apply (proj1 (proj2 (proj2 (proj2 success_rate_is_ratio)))). reflexivity.
Defined.

(* ================================================================== *)
(** * Part III.  Further properties of the code                         *)
(* ================================================================== *)

(** ** The key check at start-up *)

Section KeyFacts.

Lemma lstrip_empty_iff (s : string) :
  lstrip s = "" <-> forallb isspace (chars s) = true.
Proof.
  induction s as [|c s IH]; simpl; [tauto|].
  destruct (isspace c); simpl; [exact IH|]. split; discriminate.
Qed.

Lemma rstrip_empty_iff (s : string) :
  rstrip s = "" <-> forallb isspace (chars s) = true.
Proof.
  induction s as [|c s IH]; [simpl; tauto|].
  rewrite rstrip_cons. cbn [chars list_ascii_of_string forallb].
  fold (chars s). destruct (rstrip s) as [|d r].
  - destruct (isspace c); simpl.
    + rewrite <- IH. tauto.
    + split; discriminate.
  - split; [discriminate|]. intros H. apply andb_true_iff in H as [_ H].
    apply IH in H. discriminate.
Qed.

Lemma strip_empty_iff (s : string) :
  strip s = "" <-> forallb isspace (chars s) = true.
Proof.
  unfold strip. rewrite <- lstrip_empty_iff. split.
  - intros H. destruct (lstrip s) as [|c t] eqn:E; [reflexivity|].
    pose proof (lstrip_first s c) as F. rewrite E in F.
    specialize (F eq_refl). apply rstrip_empty_iff in H. simpl in H.
    rewrite F in H. discriminate.
  - intros ->. reflexivity.
Qed.

End KeyFacts.

(** X1.  The module exits at start-up exactly when [GROQ_API_KEY] is unset
    or holds nothing but white space; a key that is accepted is not empty
    and has no white space at either end. *)
Theorem startup_exits_iff (env : option string) :
  (startup_exits env = true <->
   env = None
   \/ exists v, env = Some v /\ forallb isspace (chars v) = true)
  /\ (startup_exits env = false ->
      read_api_key env <> "" /\ strip (read_api_key env) = read_api_key env).
Proof.
  unfold startup_exits, read_api_key. split.
  - destruct env as [v|].
    + destruct (strip v) eqn:E; simpl.
      * apply strip_empty_iff in E. split; [eauto|reflexivity].
      * split; [discriminate|]. intros [H|(w & [= <-] & H)]; [discriminate|].
        apply strip_empty_iff in H. congruence.
    + simpl. split; auto.
  - intros H. split.
    + destruct (strip _); [discriminate | discriminate].
    + apply strip_idempotent.
Qed.

Lemma startup_exits_iff_witness :
  startup_exits (Some (String nl "  ")) = true
  /\ read_api_key (Some " gsk_abc ") = "gsk_abc".
Proof.
  split.
  - apply (proj1 (startup_exits_iff (Some (String nl "  ")))).
    right. exists (String nl "  "). split; reflexivity.
  - reflexivity.
Defined.

(** ** The polarity of an intent *)

Lemma lower_append (a b : string) : lower (a ++ b) = lower a ++ lower b.
Proof. induction a as [|c a IH]; simpl; [reflexivity | now rewrite IH]. Qed.

(** X2.  Whether an intent is judged as a block intent is decided by a
    substring test without regard to letter case: any intent in which
    [block] occurs in some mix of cases, also inside a longer word such as
    [Unblock], is verified against a loss of 100. *)
Theorem block_keyword_is_substring (p w q : string) (loss : Z) :
  lower w = "block" ->
  success_predicate (p ++ w ++ q) loss = (loss =? 100).
Proof.
  intros H. unfold success_predicate.
  now rewrite !lower_append, H, contains_intro.
Qed.

Lemma block_keyword_is_substring_witness :
  success_predicate "Unblock traffic from h1 to h2" 100 = true
  /\ success_predicate "Do not BLOCK h1" 0 = false.
Proof.
  split.
  - apply (block_keyword_is_substring "Un" "block" " traffic from h1 to h2").
    reflexivity.
  - apply (block_keyword_is_substring "Do not " "BLOCK" " h1"). reflexivity.
Defined.

(** ** The clean-up only deletes *)

Section SubseqFacts.

Lemma subseq_refl (s : string) : subseq s s.
Proof. induction s; constructor; assumption. Qed.

Lemma subseq_nil_l (s : string) : subseq "" s.
Proof. induction s; constructor; assumption. Qed.

Lemma subseq_trans (a b c : string) : subseq a b -> subseq b c -> subseq a c.
Proof.
  intros Hab Hbc. revert a Hab.
  induction Hbc as [|x s t Hst IH|x s t Hst IH]; intros a Hab.
  - exact Hab.
  - inversion Hab; subst.
    + apply subseq_keep. now apply IH.
    + apply subseq_drop. now apply IH.
  - apply subseq_drop. now apply IH.
Qed.

Lemma subseq_length (a b : string) :
  subseq a b -> (String.length a <= String.length b)%nat.
Proof. induction 1; simpl; lia. Qed.

Lemma subseq_incl (a b : string) (c : ascii) :
  subseq a b -> In c (chars a) -> In c (chars b).
Proof. induction 1; simpl; tauto. Qed.

Lemma lstrip_subseq (s : string) : subseq (lstrip s) s.
Proof.
  induction s as [|c s IH]; simpl; [constructor|].
  destruct (isspace c); [now apply subseq_drop | apply subseq_refl].
Qed.

Lemma rstrip_subseq (s : string) : subseq (rstrip s) s.
Proof.
  induction s as [|c s IH]; [constructor|].
  rewrite rstrip_cons. destruct (rstrip s) as [|d r].
  - destruct (isspace c); [apply subseq_nil_l|].
    apply subseq_keep, subseq_nil_l.
  - now apply subseq_keep.
Qed.

Lemma strip_subseq (s : string) : subseq (strip s) s.
Proof.
  unfold strip. eapply subseq_trans; [apply rstrip_subseq|apply lstrip_subseq].
Qed.

Lemma replace_scan_subseq (old s : string) (skip : nat) :
  subseq (replace_scan old "" s skip) s.
Proof.
  revert skip. induction s as [|c s IH]; intros skip; [constructor|].
  cbn [replace_scan]. destruct skip as [|k].
  - destruct (prefix old (String c s)).
    + simpl append. apply subseq_drop, IH.
    + apply subseq_keep, IH.
  - apply subseq_drop, IH.
Qed.

Lemma split_scan_subseq (sep s : string) (skip : nat) :
  subseq (fst (split_scan sep s skip)) s
  /\ Forall (fun p => subseq p s) (snd (split_scan sep s skip)).
Proof.
  revert skip. induction s as [|c s IH]; intros skip.
  - simpl. split; constructor.
  - assert (D : forall l, Forall (fun p => subseq p s) l ->
                          Forall (fun p => subseq p (String c s)) l).
    { intros l. apply Forall_impl. intros p. apply subseq_drop. }
    cbn [split_scan]. destruct skip as [|k].
    + destruct (prefix sep (String c s)).
      * destruct (IH (String.length sep - 1)%nat) as [Hp Hps].
        destruct (split_scan sep s (String.length sep - 1)) as [p ps].
        simpl in *. split; [apply subseq_nil_l|].
        constructor; [now apply subseq_drop | now apply D].
      * destruct (IH 0%nat) as [Hp Hps].
        destruct (split_scan sep s 0) as [p ps]. simpl in *.
        split; [now apply subseq_keep | now apply D].
    + destruct (IH k) as [Hp Hps]. split; [now apply subseq_drop|now apply D].
Qed.

Lemma split_part_subseq (sep s : string) (n : nat) :
  subseq (nth n (split sep s) EmptyString) s.
Proof.
  unfold split. destruct (split_scan_subseq sep s 0) as [Hp Hps].
  destruct (split_scan sep s 0) as [p ps]. simpl in *.
  destruct n as [|n]; [exact Hp|]. simpl.
  revert n. induction Hps as [|x l Hx Hl IH]; intros n.
  - destruct n; apply subseq_nil_l.
  - destruct n; [exact Hx | apply IH].
Qed.

End SubseqFacts.

(** X3.  [sanitize] only deletes: the cleaned text is the raw text with some
    characters taken out, in the same order.  So it is never longer than
    the raw text and holds no character the raw text did not hold. *)
Theorem sanitize_only_deletes (raw : string) :
  subseq (sanitize raw) raw
  /\ (String.length (sanitize raw) <= String.length raw)%nat
  /\ (forall c, In c (chars (sanitize raw)) -> In c (chars raw)).
Proof.
  assert (H : subseq (sanitize raw) raw).
  { unfold sanitize.
    eapply subseq_trans; [apply strip_subseq|].
    eapply subseq_trans; [apply replace_scan_subseq|].
    eapply subseq_trans; [apply replace_scan_subseq|].
    destruct (contains fence (strip raw)); [|apply strip_subseq].
    eapply subseq_trans; [apply strip_subseq|].
    eapply subseq_trans; [apply replace_scan_subseq|].
    eapply subseq_trans; [apply replace_scan_subseq|].
    eapply subseq_trans; [|apply strip_subseq].
    destruct (2 <=? Z.of_nat (List.length (split fence (strip raw))));
      [apply split_part_subseq | apply subseq_refl]. }
  split; [exact H|]. split; [now apply subseq_length|].
  intros c. now apply subseq_incl.
Qed.

(** ** The calls a run makes *)

Section CallFacts.
Context {T : Testbed}.
Variables intent src dst : string.

Lemma attempt_body_calls (attempt : Z) (fb : option string)
    (h h1 : History) (step : Step) (rec : AttemptRecord) :
  attempt_body intent src dst attempt fb h = (step, rec, h1) ->
  attempt_calls intent src dst rec.
Proof.
  intros H.
  pose proof (attempt_body_step _ _ _ _ _ _ _ _ _ H) as (_ & Hfb & Hst & _).
  pose proof (attempt_body_generation _ _ _ _ _ _ _ _ _ H) as Hgen.
  unfold attempt_calls. rewrite Hfb, Hst.
  exists (completion_oracle h (user_message intent fb)).
  split; [exact Hgen|].
  pose proof (generate_network_command_eq intent fb h) as G.
  destruct (truthy (option_map sanitize
                      (completion_oracle h (user_message intent fb)))) eqn:Ht.
  - destruct (option_map sanitize _) as [cmd|] eqn:Ec; [|discriminate].
    pose proof (attempt_body_deploy intent src dst attempt fb h _ cmd G Ht)
      as E.
    destruct (test_connectivity src dst _) as [[lb sb] h2] eqn:E1.
    destruct (node_cmd src cmd h2) as [out2 h3] eqn:E2.
    destruct (test_connectivity src dst h3) as [[la sa] h4] eqn:E3.
    rewrite test_connectivity_eq in E1, E3. unfold node_cmd in E2.
    injection E1 as C1 <-. injection E2 as <- <-. injection E3 as C3 <-.
    assert (Hne : cmd <> "") by (destruct cmd; [discriminate|discriminate]).
    rewrite E in H. clear E.
    destruct (success_predicate intent la) eqn:Hs; inversion H; subst;
      cbn [a_command a_probe a_end]; (split; [reflexivity|]);
      eexists cmd, _, _, _; rewrite C1, C3, Hs; cbn [fst];
      repeat split; auto.
    eexists. reflexivity.
  - rewrite (attempt_body_skip _ _ _ _ _ _ _ _ G Ht) in H.
    inversion H; subst. cbn [a_command a_probe a_end].
    split; [reflexivity | split; [exact Ht | reflexivity]].
Qed.

Lemma last_cons {A : Type} (x d : A) (l : list A) :
  last (x :: l) d = last l x.
Proof.
  revert x d. induction l as [|y l IH]; intros x d; [reflexivity|].
  change (last (x :: y :: l) d) with (last (y :: l) d).
  now rewrite (IH y d), (IH y x).
Qed.

(** The attempts of the loop follow one another, each with its calls. *)
Lemma for_attempts_calls (todo : list Z) (fb : option string)
    (h h' : History) (r : option IntentResult) (log : list AttemptRecord) :
  for_attempts intent src dst todo fb h = (r, log, h') ->
  h' = last (map a_end log) h
  /\ Forall (attempt_calls intent src dst) log
  /\ forall pre rec post,
      log = (pre ++ rec :: post)%list ->
      a_start rec = last (map a_end pre) h.
Proof.
  revert fb h h' r log. induction todo as [|attempt rest IH];
    intros fb h h' r log H.
  - inversion H; subst. repeat split; [constructor|].
    intros pre rec post E. now destruct pre.
  - rewrite for_attempts_cons in H.
    destruct (attempt_body intent src dst attempt fb h)
      as [[step rec0] h1] eqn:E.
    pose proof (attempt_body_calls _ _ _ _ _ _ E) as Hcalls.
    pose proof (attempt_body_step _ _ _ _ _ _ _ _ _ E)
      as (_ & _ & Hst & Hen & _).
    clear E. subst h h1.
    destruct step as [fb'|res].
    + destruct (for_attempts intent src dst rest fb' (a_end rec0))
        as [[r' log'] h2] eqn:F.
      inversion H; subst r log h'. clear H.
      destruct (IH _ _ _ _ _ F) as (Hlast & Hall & Hchain).
      cbn [map]. rewrite last_cons. repeat split; auto.
      intros pre rec post Hlog.
      destruct pre as [|x pre]; simpl in Hlog; inversion Hlog; subst.
      * reflexivity.
      * cbn [map]. rewrite last_cons. now apply (Hchain pre rec post).
    + inversion H; subst r log h'. clear H.
      cbn [map last]. repeat split; auto.
      intros pre rec post Hlog.
      destruct pre as [|x pre]; simpl in Hlog; inversion Hlog; subst.
      * reflexivity.
      * now destruct pre.
Qed.

(** The calls of one attempt read off the history alone: what follows
    the request is decided by the cleaned content and by the output of the
    verification ping. *)
Lemma attempt_calls_trace (rec : AttemptRecord) :
  attempt_calls intent src dst rec ->
  exists content,
    a_command rec = option_map sanitize content
    /\ let requested :=
         Completion (user_message intent (a_feedback rec)) content
         :: a_start rec in
       if truthy (a_command rec)
       then exists cmd out1 out2 out3,
           a_command rec = Some cmd
           /\ let probed :=
                Cmd src ("ping -c 3 -W 1 " ++ node_IP dst) out3
                :: Cmd src cmd out2
                :: Cmd src ("ping -c 3 -W 1 " ++ node_IP dst) out1
                :: requested in
              if success_predicate intent (fst (classify out3))
              then a_end rec = probed
              else exists outf,
                  a_end rec = Cmd src "iptables -F" outf :: probed
       else a_end rec = requested.
Proof.
  intros (content & Hgen & Hcmd & H). exists content.
  split; [exact Hcmd|]. cbn zeta. unfold after_generation in Hgen.
  destruct (a_probe rec) as [[[hb lb] la]|].
  - destruct H as (cmd & out1 & out2 & out3 & Hc & Hne & _ & Hla & H).
    cbn zeta in H. subst hb la. rewrite Hc.
    destruct cmd as [|c cmd]; [now elim Hne|]. cbn [truthy].
    exists (String c cmd), out1, out2, out3. split; [reflexivity|].
    exact H.
  - destruct H as [Ht He]. now rewrite Ht.
Qed.

(** The calls of one attempt, counted and classified. *)
Lemma attempt_calls_new (rec : AttemptRecord) :
  attempt_calls intent src dst rec ->
  exists new,
    a_end rec = (new ++ a_start rec)%list
    /\ Forall (own_call src dst) new
    /\ List.length (filter is_completion new) = 1%nat
    /\ List.length (filter is_cmd new)
       = ((if deployed rec then 3 else 0)
          + (if deployed_failed intent rec then 1 else 0))%nat.
Proof.
  intros (content & Hgen & Hcmd & H).
  unfold deployed_failed, deployed, attempt_succeeded, loss_after.
  unfold after_generation in *.
  assert (Hping : forall o,
             own_call src dst (Cmd src ("ping -c 3 -W 1 " ++ node_IP dst) o))
    by (intros o; split; [reflexivity | now left]).
  assert (Hflush : forall o, own_call src dst (Cmd src "iptables -F" o))
    by (intros o; split; [reflexivity | right; now left]).
  destruct (a_probe rec) as [[[hb lb] la]|].
  - destruct H as (cmd & out1 & out2 & out3 & Hc & Hne & _ & _ & H).
    assert (Hown : own_call src dst (Cmd src cmd out2)).
    { split; [reflexivity|]. right. right. split; [exact Hne|].
      rewrite Hc in Hcmd. destruct content as [c|]; [|discriminate].
      exists c. now inversion Hcmd. }
    cbn zeta in H. subst hb.
    destruct (success_predicate intent la).
    + eexists [_; _; _; _]. rewrite H. split; [reflexivity|].
      split; [|split; reflexivity].
      repeat first [apply Forall_nil
                   | apply Forall_cons;
                     [first [apply Hping | exact Hown | exact I]|]].
    + destruct H as [outf H].
      eexists [_; _; _; _; _]. rewrite H. split; [reflexivity|].
      split; [|split; reflexivity].
      repeat first [apply Forall_nil
                   | apply Forall_cons;
                     [first [apply Hping | exact Hown | apply Hflush
                            | exact I]|]].
  - eexists [_]. rewrite Hgen. split; [reflexivity|].
    split; [|split; reflexivity]. repeat constructor.
Qed.

Lemma for_attempts_new (todo : list Z) (fb : option string)
    (h h' : History) (r : option IntentResult) (log : list AttemptRecord) :
  for_attempts intent src dst todo fb h = (r, log, h') ->
  exists new,
    h' = (new ++ h)%list
    /\ Forall (own_call src dst) new
    /\ List.length (filter is_completion new) = List.length log
    /\ List.length (filter is_cmd new)
       = (3 * List.length (filter deployed log)
          + List.length (filter (deployed_failed intent) log))%nat.
Proof.
  intros H. apply for_attempts_calls in H as (-> & Hall & Hchain).
  clear r. revert h Hchain.
  induction Hall as [|rec log Hrec Hall IH]; intros h Hchain.
  - exists []. repeat split; constructor.
  - destruct (attempt_calls_new rec Hrec) as (n1 & E1 & O1 & C1 & K1).
    pose proof (Hchain [] rec log eq_refl) as Hst. simpl in Hst.
    destruct (IH (a_end rec)) as (n2 & E2 & O2 & C2 & K2).
    { intros pre x post Hlog.
      specialize (Hchain (rec :: pre) x post). cbn [map] in Hchain.
      rewrite last_cons in Hchain. apply Hchain. now rewrite Hlog. }
    exists (n2 ++ n1)%list. cbn [map]. rewrite last_cons, E2, E1, Hst.
    split; [now rewrite app_assoc|].
    split; [apply Forall_app; auto|].
    rewrite !filter_app, !length_app, C1, C2, K1, K2. cbn [filter].
    destruct (deployed rec), (deployed_failed intent rec); simpl; lia.
Qed.

(** How [process_intent] can end, whatever the budget. *)
Lemma process_intent_shape (max_attempts : Z) (h h' : History)
    (res : IntentResult) (log : list AttemptRecord) :
  process_intent_log intent src dst max_attempts h = (res, log, h') ->
  (exists pre rec,
      log = (pre ++ [rec])%list
      /\ attempt_succeeded intent rec = true
      /\ truthy (a_command rec) = true
      /\ res = {| success := true; command := a_command rec;
                  attempts := a_index rec |}
      /\ 1 <= a_index rec <= max_attempts)
  \/ (res = {| success := false; command := None; attempts := max_attempts |}
      /\ List.length log = Z.to_nat max_attempts).
Proof.
  intros H. unfold process_intent_log, bind, ret in H.
  destruct (for_attempts intent src dst (range 1 (max_attempts + 1)) None h)
    as [[r log'] h1] eqn:F.
  apply for_attempts_log in F as [Hmap Hr].
  assert (Hlen : (List.length log' <= Z.to_nat max_attempts)%nat).
  { apply (f_equal (@List.length Z)) in Hmap.
    rewrite length_map, length_firstn, length_range in Hmap.
    replace (max_attempts + 1 - 1) with max_attempts in Hmap by lia. lia. }
  rewrite firstn_range in Hmap
    by (replace (max_attempts + 1 - 1) with max_attempts by lia; exact Hlen).
  destruct r as [res'|]; inversion H; subst.
  - left. destruct Hr as (pre & rec & -> & _ & Hs & Hc & ->).
    exists pre, rec. repeat split; auto;
      rewrite length_app in Hmap, Hlen; cbn [List.length] in Hmap, Hlen;
      replace (List.length pre + 1)%nat with (S (List.length pre)) in Hmap
        by lia;
      rewrite range_snoc, map_app in Hmap; cbn [map] in Hmap;
      apply app_inj_tail in Hmap as [_ Hidx]; lia.
  - right. destruct Hr as [Hl _]. rewrite length_range in Hl.
    split; [reflexivity|].
    now replace (max_attempts + 1 - 1) with max_attempts in Hl by lia.
Qed.

End CallFacts.

Section RunFacts.
Context {T : Testbed}.
Variables intent src dst : string.

Lemma process_intent_log_loop (max_attempts : Z) (h h' : History)
    (res : IntentResult) (log : list AttemptRecord) :
  process_intent_log intent src dst max_attempts h = (res, log, h') ->
  exists r,
    for_attempts intent src dst (range 1 (max_attempts + 1)) None h
    = (r, log, h').
Proof.
  unfold process_intent_log, bind, ret.
  destruct (for_attempts intent src dst (range 1 (max_attempts + 1)) None h)
    as [[r log'] h1].
  intros H. exists r. destruct r; inversion H; reflexivity.
Qed.

Lemma process_intent_erase (max_attempts : Z) (h : History) :
  process_intent intent src dst max_attempts h
  = (fst (fst (process_intent_log intent src dst max_attempts h)),
     snd (process_intent_log intent src dst max_attempts h)).
Proof.
  unfold process_intent, bind, ret.
  now destruct (process_intent_log intent src dst max_attempts h) as [[r l] k].
Qed.

End RunFacts.

(** X4.  In a run of [process_intent] every attempt makes its calls in one
    fixed order: the completion request; then, exactly when its cleaned
    content is a non-empty command, the baseline ping, that command and the
    verification ping, all on the source host; then the flush, exactly when
    the loss read from the verification ping fails the success predicate.
    An attempt whose request gave no command makes no other call.  The
    attempts follow one another with no call in between, from the history
    the run started with to the one it ends with. *)
Theorem attempt_call_order (T : Testbed) (intent src dst : string)
    (max_attempts : Z) (h h' : History) (res : IntentResult)
    (log : list AttemptRecord) :
  process_intent_log intent src dst max_attempts h = (res, log, h') ->
  h' = last (map a_end log) h
  /\ Forall (attempt_calls intent src dst) log
  /\ (forall pre rec post,
        log = (pre ++ rec :: post)%list ->
        a_start rec = last (map a_end pre) h)
  /\ Forall (fun rec =>
               exists content,
                 a_command rec = option_map sanitize content
                 /\ let requested :=
                      Completion (user_message intent (a_feedback rec))
                        content :: a_start rec in
                    if truthy (a_command rec)
                    then exists cmd out1 out2 out3,
                        a_command rec = Some cmd
                        /\ let probed :=
                             Cmd src ("ping -c 3 -W 1 " ++ node_IP dst) out3
                             :: Cmd src cmd out2
                             :: Cmd src ("ping -c 3 -W 1 " ++ node_IP dst)
                                  out1
                             :: requested in
                           if success_predicate intent (fst (classify out3))
                           then a_end rec = probed
                           else exists outf,
                               a_end rec
                               = Cmd src "iptables -F" outf :: probed
                    else a_end rec = requested)
       log.
Proof.
  intros H. apply process_intent_log_loop in H as [r H].
  apply for_attempts_calls in H as (Hlast & Hall & Hchain).
  repeat split; auto.
  eapply Forall_impl; [|exact Hall].
  intros rec Hrec. now apply attempt_calls_trace.
Qed.

Lemma attempt_call_order_witness :
  Forall (@attempt_calls retry_bed "Block traffic from h1 to h2" "h1" "h2")
    (snd (fst (@process_intent_log retry_bed "Block traffic from h1 to h2"
                 "h1" "h2" 3 []))).
Proof.
  destruct (@process_intent_log retry_bed "Block traffic from h1 to h2"
              "h1" "h2" 3 []) as [[res log] h'] eqn:E.
  exact (proj1 (proj2 (attempt_call_order retry_bed _ _ _ _ _ _ _ _ E))).
Defined.

Section OwnCalls.
Context {T : Testbed}.
Variables intent src dst : string.

Lemma find_app_some {A : Type} (f : A -> bool) (l1 l2 : list A) (x : A) :
  find f l1 = Some x -> find f (l1 ++ l2) = Some x.
Proof.
  induction l1 as [|y l1 IH]; [discriminate|]. cbn [find app].
  destruct (f y); auto.
Qed.

Lemma own_call_after_app (later earlier : History) (c : Call) :
  own_call_after intent src dst later c ->
  own_call_after intent src dst (later ++ earlier)%list c.
Proof.
  destruct c as [msg content|host command out]; [auto|].
  intros [Hh [Hp|[Hf|(Hne & msg & content & Hfind & Hc)]]];
    (split; [exact Hh|]); auto.
  right. right. split; [exact Hne|]. exists msg, content.
  split; [now apply find_app_some | exact Hc].
Qed.

Lemma own_calls_app (later earlier : History) :
  own_calls intent src dst later -> own_calls intent src dst earlier ->
  own_calls intent src dst (later ++ earlier)%list.
Proof.
  intros Hl He. induction later as [|c later IH]; [exact He|].
  destruct Hl as [Hc Hl]. cbn [own_calls app].
  split; [now apply own_call_after_app | auto].
Qed.

(** The calls of one attempt: the command it deploys is the cleaned
    content of its own request. *)
Lemma attempt_calls_own (rec : AttemptRecord) :
  attempt_calls intent src dst rec ->
  exists new,
    a_end rec = (new ++ a_start rec)%list
    /\ own_calls intent src dst new.
Proof.
  intros H. apply attempt_calls_trace in H as (content & Hcmd & H).
  cbn zeta in H.
  assert (Hreq : own_call_after intent src dst []
                   (Completion (user_message intent (a_feedback rec))
                      content))
    by (now exists (a_feedback rec)).
  destruct (truthy (a_command rec)) eqn:Ht.
  - destruct H as (cmd & out1 & out2 & out3 & Hc & H).
    rewrite Hc in Hcmd, Ht.
    destruct content as [c|]; [|discriminate]. injection Hcmd as Hcmd.
    assert (Hne : cmd <> "") by (now destruct cmd).
    assert (Hown : forall out later,
               own_call_after intent src dst
                 (Cmd src ("ping -c 3 -W 1 " ++ node_IP dst) out
                  :: Completion (user_message intent (a_feedback rec))
                       (Some c) :: later)
                 (Cmd src cmd out2)).
    { intros out later. split; [reflexivity|]. right. right.
      split; [exact Hne|].
      exists (user_message intent (a_feedback rec)), c. now split. }
    assert (Hping : forall out later,
               own_call_after intent src dst later
                 (Cmd src ("ping -c 3 -W 1 " ++ node_IP dst) out))
      by (intros out later; split; [reflexivity | now left]).
    assert (Hflush : forall out later,
               own_call_after intent src dst later
                 (Cmd src "iptables -F" out))
      by (intros out later; split; [reflexivity | right; now left]).
    destruct (success_predicate intent (fst (classify out3))).
    + eexists [_; _; _; _]. rewrite H. split; [reflexivity|].
      cbn [own_calls].
      repeat (split; [first [apply Hping | apply Hown | exact Hreq]|]).
      exact I.
    + destruct H as [outf H].
      eexists [_; _; _; _; _]. rewrite H. split; [reflexivity|].
      cbn [own_calls].
      repeat (split; [first [apply Hping | apply Hown | apply Hflush
                            | exact Hreq]|]).
      exact I.
  - eexists [_]. rewrite H. split; [reflexivity|].
    cbn [own_calls]. split; [exact Hreq | exact I].
Qed.

Lemma for_attempts_own (todo : list Z) (fb : option string)
    (h h' : History) (r : option IntentResult) (log : list AttemptRecord) :
  for_attempts intent src dst todo fb h = (r, log, h') ->
  exists new, h' = (new ++ h)%list /\ own_calls intent src dst new.
Proof.
  intros H. apply for_attempts_calls in H as (-> & Hall & Hchain).
  clear r. revert h Hchain.
  induction Hall as [|rec log Hrec Hall IH]; intros h Hchain.
  - exists []. split; [reflexivity | exact I].
  - destruct (attempt_calls_own rec Hrec) as (n1 & E1 & O1).
    pose proof (Hchain [] rec log eq_refl) as Hst. simpl in Hst.
    destruct (IH (a_end rec)) as (n2 & E2 & O2).
    { intros pre x post Hlog.
      specialize (Hchain (rec :: pre) x post). cbn [map] in Hchain.
      rewrite last_cons in Hchain. apply Hchain. now rewrite Hlog. }
    exists (n2 ++ n1)%list. cbn [map]. rewrite last_cons, E2, E1, Hst.
    split; [now rewrite app_assoc | now apply own_calls_app].
Qed.

End OwnCalls.

(** X5.  Whatever the generator answers, [process_intent] only adds calls
    to the history, and every call it adds is a completion request for the
    intent or a command on the source host.  Such a command is the ping of
    the destination, the flush, or the non-empty cleaned content of the
    most recent completion request the run made before it: nothing is run
    that the generator did not just answer. *)
Theorem process_intent_own_calls (T : Testbed) (intent src dst : string)
    (max_attempts : Z) (h h' : History) (res : IntentResult) :
  process_intent intent src dst max_attempts h = (res, h') ->
  exists new,
    h' = (new ++ h)%list
    /\ own_calls intent src dst new
    /\ forall later host command out earlier,
        new = (later ++ Cmd host command out :: earlier)%list ->
        host = src
        /\ (command = "ping -c 3 -W 1 " ++ node_IP dst
            \/ command = "iptables -F"
            \/ (command <> ""
                /\ exists msg content,
                    find is_completion earlier
                    = Some (Completion msg (Some content))
                    /\ command = sanitize content)).
Proof.
  rewrite process_intent_erase. intros H.
  destruct (process_intent_log intent src dst max_attempts h)
    as [[r log] k] eqn:E.
  inversion H; subst. apply process_intent_log_loop in E as [r' E].
  apply for_attempts_own in E as (new & E & O).
  exists new. split; [exact E|]. split; [exact O|].
  clear E. induction new as [|c new IH]; intros later host command out
    earlier Hnew.
  - now destruct later.
  - destruct O as [Hc O]. destruct later as [|c' later];
      cbn [app] in Hnew; inversion Hnew; subst.
    + exact Hc.
    + now apply (IH O later host command out earlier).
Qed.

Lemma process_intent_own_calls_witness :
  exists new,
    snd (@process_intent retry_bed "Block traffic from h1 to h2" "h1" "h2" 3
           [Cmd "h2" "true" ""])
    = (new ++ [Cmd "h2" "true" ""])%list
    /\ @own_calls retry_bed "Block traffic from h1 to h2" "h1" "h2" new.
Proof.
  destruct (@process_intent retry_bed "Block traffic from h1 to h2" "h1" "h2"
              3 [Cmd "h2" "true" ""]) as [res h'] eqn:E.
  destruct (process_intent_own_calls retry_bed _ _ _ _ _ _ _ E)
    as (new & Hh & Ho & _).
  exists new. split; [exact Hh | exact Ho].
Defined.

(** A command the generator did not answer is not a call of a run, and a
    command it did answer is one only right after that answer. *)
Example own_calls_rejects :
  ~ @own_calls retry_bed "Block traffic from h1 to h2" "h1" "h2"
      [Cmd "h1" "rm -rf /" ""]
  /\ ~ @own_calls retry_bed "Block traffic from h1 to h2" "h1" "h2"
        [Cmd "h1" "rm -rf /" "";
         Completion "User intent: Block traffic from h1 to h2"
           (Some "iptables -F");
         Completion "User intent: Block traffic from h1 to h2"
           (Some "rm -rf /")].
Proof.
  split; intros [[_ [H|[H|(_ & msg & content & H & Hc)]]] _];
    try discriminate H.
  injection H as _ <-. discriminate Hc.
Qed.



(** X7.  A run of [process_intent] that reports success ends with the
    verification ping, and the call before it runs the very command the
    result reports; no flush follows, so the verified rule is left in place
    on the source host when [process_intent] returns.  The loss read from
    that last ping satisfies the success predicate. *)
Theorem verified_rule_stays (T : Testbed) (intent src dst : string)
    (max_attempts : Z) (h h' : History) (res : IntentResult) :
  process_intent intent src dst max_attempts h = (res, h') ->
  success res = true ->
  exists cmd out1 out2 out3 rest,
    command res = Some cmd /\ cmd <> ""
    /\ h' = Cmd src ("ping -c 3 -W 1 " ++ node_IP dst) out3
            :: Cmd src cmd out2
            :: Cmd src ("ping -c 3 -W 1 " ++ node_IP dst) out1
            :: rest
    /\ success_predicate intent (fst (classify out3)) = true.
Proof.
  rewrite process_intent_erase. intros H Hs.
  destruct (process_intent_log intent src dst max_attempts h)
    as [[r log] k] eqn:E.
  inversion H; subst. clear H.
  pose proof (process_intent_shape _ _ _ _ _ _ _ _ E) as S.
  destruct S as [(pre & rec & -> & Hrec & _ & -> & _)|[-> _]];
    [|discriminate].
  apply process_intent_log_loop in E as [r' E].
  apply for_attempts_calls in E as (-> & Hall & _).
  apply Forall_app in Hall as [_ Hall]. inversion Hall as [|? ? Hc _]; subst.
  rewrite map_app. cbn [map]. rewrite last_last.
  destruct Hc as (content & _ & _ & Hc).
  unfold attempt_succeeded, loss_after in Hrec.
  destruct (a_probe rec) as [[[hb lb] la]|]; [|discriminate].
  destruct Hc as (cmd & out1 & out2 & out3 & Hcmd & Hne & _ & Hla & Hend).
  cbn zeta in Hend. rewrite Hrec in Hend.
  exists cmd, out1, out2, out3, hb. cbn [command].
  rewrite <- Hla. repeat split; auto.
Qed.

Lemma verified_rule_stays_witness :
  exists out1 out2 out3 rest,
    snd (@process_intent third_time_bed "Allow traffic from h1 to h2"
           "h1" "h2" 3 [])
    = Cmd "h1" "ping -c 3 -W 1 10.0.0.2" out3
      :: Cmd "h1" drop_rule out2
      :: Cmd "h1" "ping -c 3 -W 1 10.0.0.2" out1 :: rest.
Proof.
  destruct (@process_intent third_time_bed "Allow traffic from h1 to h2"
              "h1" "h2" 3 []) as [res h'] eqn:E.
  assert (Hs : success res = true) by (vm_compute in E; now inversion E).
  destruct (verified_rule_stays third_time_bed _ _ _ _ _ _ _ E Hs)
    as (cmd & out1 & out2 & out3 & rest & Hc & _ & Hh & _).
  assert (cmd = drop_rule)
    by (vm_compute in E; inversion E; subst; now inversion Hc).
  subst cmd. exists out1, out2, out3, rest. exact Hh.
Defined.

(** X8.  With a budget of zero or less the loop body never runs:
    [process_intent] makes no request and runs no command, and reports a
    failure whose attempt count is the budget itself, zero or negative. *)
Theorem process_intent_without_budget (T : Testbed) (intent src dst : string)
    (max_attempts : Z) (h : History) :
  max_attempts <= 0 ->
  process_intent intent src dst max_attempts h
  = ({| success := false; command := None; attempts := max_attempts |}, h).
Proof.
  intros H. unfold process_intent, process_intent_log, range.
  replace (Z.to_nat (max_attempts + 1 - 1)) with 0%nat by lia.
  reflexivity.
Qed.

Lemma process_intent_without_budget_witness :
  @process_intent retry_bed "Block traffic from h1 to h2" "h1" "h2" (-2) []
  = ({| success := false; command := None; attempts := -2 |}, []).
Proof. apply process_intent_without_budget. lia. Defined.

(** ** The batch of test cases *)

Section BatchFacts.
Context {T : Testbed}.

Lemma run_tests_cons (test : TestCase) (rest : list TestCase) (h : History) :
  run_tests (test :: rest) h
  = (let '(result, h1) :=
       process_intent (t_intent test) (t_src test) (t_dst test) 3 h in
     let '(results, h3) :=
       run_tests rest (snd (node_cmd (t_src test) "iptables -F" h1)) in
     ((test, result) :: results, h3)).
Proof.
  cbn [run_tests]. unfold bind at 1.
  destruct (process_intent (t_intent test) (t_src test) (t_dst test) 3 h)
    as [result h1].
  unfold bind, ret, node_cmd. cbn [snd].
  now destruct (run_tests rest _) as [results h3].
Qed.

Lemma run_tests_log_cons (test : TestCase) (rest : list TestCase)
    (h : History) :
  run_tests_log (test :: rest) h
  = (let '(result, log, h1) :=
       process_intent_log (t_intent test) (t_src test) (t_dst test) 3 h in
     let '(results, h3) :=
       run_tests_log rest (snd (node_cmd (t_src test) "iptables -F" h1)) in
     ((test, result, log) :: results, h3)).
Proof.
  cbn [run_tests_log]. unfold bind at 1.
  destruct (process_intent_log (t_intent test) (t_src test) (t_dst test) 3 h)
    as [[result log] h1].
  unfold bind, ret, node_cmd. cbn [snd].
  now destruct (run_tests_log rest _) as [results h3].
Qed.

(** Leaving the logs out of [run_tests_log] gives [run_tests]. *)
Lemma run_tests_erase (tests : list TestCase) (h : History) :
  run_tests tests h
  = (map fst (fst (run_tests_log tests h)), snd (run_tests_log tests h)).
Proof.
  revert h. induction tests as [|test rest IH]; intros h; [reflexivity|].
  rewrite run_tests_cons, run_tests_log_cons, process_intent_erase.
  destruct (process_intent_log (t_intent test) (t_src test) (t_dst test) 3 h)
    as [[result log] h1].
  cbn [fst snd]. rewrite IH.
  now destruct (run_tests_log rest _) as [results h3].
Qed.

End BatchFacts.

Section BatchShape.
Context {T : Testbed}.

Lemma run_tests_shape (tests : list TestCase) (h : History) :
  map fst (fst (run_tests tests h)) = tests
  /\ Forall (fun r =>
               success (snd r) = true /\ 1 <= attempts (snd r) <= 3
               /\ truthy (command (snd r)) = true
               \/ snd r = {| success := false; command := None;
                             attempts := 3 |})
       (fst (run_tests tests h)).
Proof.
  revert h. induction tests as [|test rest IH]; intros h.
  - split; [reflexivity | constructor].
  - rewrite run_tests_cons, process_intent_erase.
    destruct (process_intent_log (t_intent test) (t_src test) (t_dst test) 3 h)
      as [[result log] h1] eqn:E.
    cbn [fst snd].
    destruct (IH (snd (node_cmd (t_src test) "iptables -F" h1))) as [Hm Ha].
    destruct (run_tests rest _) as [results h3]. cbn [fst snd map] in *.
    split; [now rewrite Hm|]. constructor; [|exact Ha]. cbn [snd].
    destruct (process_intent_shape _ _ _ _ _ _ _ _ E)
      as [(pre & rec & _ & _ & Hc & -> & Hi)|[-> _]]; [left|now right].
    cbn [success attempts command]. auto.
Qed.

End BatchShape.

(** X9.  The test loop of [main] yields one result per test case, in the
    order of the test cases: a case that fails does not stop the loop.
    Every result is either a success after one to three attempts that
    carries a non-empty command, or the failure after exactly three
    attempts without a command. *)
Theorem run_tests_results (T : Testbed) (tests : list TestCase)
    (h : History) :
  map fst (fst (run_tests tests h)) = tests
  /\ Forall (fun r =>
               success (snd r) = true /\ 1 <= attempts (snd r) <= 3
               /\ truthy (command (snd r)) = true
               \/ snd r = {| success := false; command := None;
                             attempts := 3 |})
       (fst (run_tests tests h)).
Proof. apply run_tests_shape. Qed.

(** X10.  The report prints two lines for every test case and a third
    line, the command, for exactly the cases that passed: its length is
    twice the number of test cases plus the number of successes. *)
Theorem report_shows_commands_of_passes (T : Testbed)
    (tests : list TestCase) (h : History) (i : Z) :
  List.length (summary_lines i (fst (run_tests tests h)))
  = (2 * List.length tests
     + Z.to_nat (success_count (fst (run_tests tests h))))%nat.
Proof.
  destruct (run_tests_shape tests h) as [Hm Ha].
  set (results := fst (run_tests tests h)) in *. clearbody results.
  rewrite <- Hm, length_map, success_count_filter, Nat2Z.id.
  clear Hm. revert i.
  induction Ha as [|r results Hr Ha IH]; intros i; [reflexivity|].
  cbn [summary_lines filter List.length].
  destruct Hr as [(Hs & _ & Hc)|Hr].
  - rewrite Hs. destruct (command (snd r)) as [[|a c]|]; try discriminate.
    cbn [List.length]. rewrite IH. lia.
  - rewrite Hr. cbn [success command List.length]. rewrite IH. lia.
Qed.

(** ** The rule tables over a whole batch *)

Section BatchRules.
Context {T : Testbed}.

(** The contract of the command dialect as before, and besides: a command
    run on one host leaves the rules of every other host as they are. *)
Variable rules : History -> string -> list string.
Hypothesis flush_clears : forall h host out,
    rules (Cmd host "iptables -F" out :: h) host = [].
Hypothesis completion_keeps : forall h msg content host,
    rules (Completion msg content :: h) host = rules h host.
Hypothesis other_host_keeps : forall h host host' c out,
    host' <> host -> rules (Cmd host' c out :: h) host = rules h host.

Lemma own_calls_keep_others (src dst host : string) (new : list Call)
    (h : History) :
  Forall (own_call src dst) new -> host <> src ->
  rules (new ++ h)%list host = rules h host.
Proof.
  intros Hall Hne. induction Hall as [|c new Hc Hall IH]; [reflexivity|].
  cbn [app]. destruct c as [msg content|host' cmd out].
  - now rewrite completion_keeps.
  - destruct Hc as [-> _]. rewrite other_host_keeps; auto.
Qed.

(** X11.  Over a whole batch: when every source host of the batch starts
    without rules, every attempt of every test case starts, and takes its
    baseline measurement, with no rule on the source host of its test case.
    Nothing deployed by an earlier attempt or an earlier test case is in
    force when a measurement is taken before deployment. *)
Theorem batch_baselines_clean (tests : list TestCase) (h : History) :
  (forall t, In t tests -> rules h (t_src t) = []) ->
  run_tests tests h
  = (map fst (fst (run_tests_log tests h)), snd (run_tests_log tests h))
  /\ Forall (fun entry =>
               Forall (fun rec =>
                         rules (a_start rec) (t_src (fst (fst entry))) = []
                         /\ forall hb lb la,
                             a_probe rec = Some (hb, lb, la) ->
                             rules hb (t_src (fst (fst entry))) = [])
                 (snd entry))
       (fst (run_tests_log tests h)).
Proof.
  intros Hclean. split; [apply run_tests_erase|].
  revert h Hclean. induction tests as [|test rest IH]; intros h Hclean.
  - constructor.
  - rewrite run_tests_log_cons.
    destruct (process_intent_log (t_intent test) (t_src test) (t_dst test) 3 h)
      as [[result log] h1] eqn:E.
    assert (Hrest : forall t, In t rest ->
               rules (snd (node_cmd (t_src test) "iptables -F" h1)) (t_src t)
               = []).
    { intros t Ht. unfold node_cmd. cbn [snd].
      destruct (string_dec (t_src t) (t_src test)) as [->|Hne].
      - apply flush_clears.
      - rewrite other_host_keeps by congruence.
        pose proof E as E'. apply process_intent_log_loop in E' as [r E'].
        apply for_attempts_new in E' as (new & -> & Hown & _).
        rewrite (own_calls_keep_others _ _ _ _ _ Hown Hne).
        apply Hclean. now right. }
    specialize (IH _ Hrest).
    destruct (run_tests_log rest _) as [results h3]. cbn [fst snd] in *.
    constructor; [|exact IH]. cbn [fst snd].
    apply process_intent_log_loop in E as [r E].
    apply Forall_forall. intros rec Hin.
    apply in_split in Hin as (pre & post & Hlog).
    destruct (for_attempts_rules rules flush_clears completion_keeps
                _ _ _ _ _ _ _ _ _ E pre rec post Hlog) as (Hs & Hg & _).
    assert (H0 : rules h (t_src test) = []) by (apply Hclean; now left).
    rewrite H0 in Hs, Hg.
    assert (Hnil : (if existsb deployed pre then [] else [])
                   = ([] : list string)) by now destruct (existsb deployed pre).
    rewrite Hnil in Hs, Hg. split; [exact Hs|].
    intros hb lb la Hp. unfold after_generation in Hg. now rewrite Hp in Hg.
Qed.

End BatchRules.

Lemma installed_rules_other_host (h : History) (host host' c out : string) :
  host' <> host ->
  installed_rules (Cmd host' c out :: h) host = installed_rules h host.
Proof.
  intros H. simpl. apply String.eqb_neq in H. now rewrite H.
Qed.

Lemma batch_baselines_clean_witness :
  Forall (fun entry =>
            Forall (fun rec =>
                      installed_rules (a_start rec)
                        (t_src (fst (fst entry))) = []
                      /\ forall hb lb la,
                          a_probe rec = Some (hb, lb, la) ->
                          installed_rules hb (t_src (fst (fst entry))) = [])
              (snd entry))
    (fst (@run_tests_log two_tests_bed two_tests [])).
Proof.
  apply (@batch_baselines_clean two_tests_bed installed_rules
           installed_rules_flush installed_rules_completion
           installed_rules_other_host two_tests []).
  intros t Ht. reflexivity.
Defined.

(** ** [topology_llm_test.py]: the text handed to the JSON decoder *)

Section FenceFacts.

Lemma prefix_shorter (a b s : string) :
  prefix (a ++ b) s = true -> prefix a s = true.
Proof.
  intros H. apply prefix_inv in H as [r ->]. rewrite append_assoc.
  apply prefix_append.
Qed.

Lemma scan_keeps_no_tick (s : string) :
  prefix "`" s = false -> prefix "`" (replace_scan fence "" s 0) = false.
Proof.
  destruct s as [|e t]; [reflexivity|]. intros H.
  assert (F : prefix fence (String e t) = false).
  { destruct (prefix fence (String e t)) eqn:E; [|reflexivity].
    apply (prefix_shorter "`" "``") in E. congruence. }
  cbn [replace_scan]. rewrite F.
  rewrite prefix_cons, prefix_nil_l in *. exact H.
Qed.

Lemma scan_keeps_no_two_ticks (s : string) :
  prefix "``" s = false -> prefix "``" (replace_scan fence "" s 0) = false.
Proof.
  destruct s as [|d t]; [reflexivity|]. intros H.
  assert (F : prefix fence (String d t) = false).
  { destruct (prefix fence (String d t)) eqn:E; [|reflexivity].
    apply (prefix_shorter "``" "`") in E. congruence. }
  cbn [replace_scan]. rewrite F.
  rewrite prefix_cons in *. destruct (Ascii.eqb "`" d); [|reflexivity].
  simpl andb in *. now apply scan_keeps_no_tick.
Qed.

Lemma scan_leaves_no_fence (n : nat) (s : string) :
  (String.length s <= n)%nat ->
  contains fence (replace_scan fence "" s 0) = false.
Proof.
  revert s. induction n as [|n IH]; intros s Hn.
  - destruct s; [reflexivity | simpl in Hn; lia].
  - destruct s as [|c t]; [reflexivity|].
    destruct (prefix fence (String c t)) eqn:P.
    + apply prefix_inv in P as [r Hr]. rewrite Hr.
      rewrite replace_scan_match by discriminate. simpl append.
      apply IH. apply (f_equal String.length) in Hr. simpl in Hr, Hn. lia.
    + cbn [replace_scan]. rewrite P, contains_unfold.
      rewrite IH by (simpl in Hn; lia). rewrite orb_false_r.
      unfold fence in *. rewrite prefix_cons in *.
      destruct (Ascii.eqb "`" c); [|reflexivity]. simpl andb in *.
      now apply scan_keeps_no_two_ticks.
Qed.

End FenceFacts.

(** X12.  The text that [main] of the topology test hands to the JSON
    decoder holds no code fence, whatever the model wrote: removing every
    fence from left to right cannot bring the backquotes around a removed
    fence together into a new one. *)
Theorem cleaned_output_has_no_fence (llm_output : string) :
  contains "```" (Topology.clean_llm_output llm_output) = false
  /\ subseq (Topology.clean_llm_output llm_output) llm_output.
Proof.
  unfold Topology.clean_llm_output. split.
  - apply (scan_leaves_no_fence (String.length (replace "```json" ""
                                                  (strip llm_output)))).
    apply Nat.le_refl.
  - eapply subseq_trans; [apply replace_scan_subseq|].
    eapply subseq_trans; [apply replace_scan_subseq|]. apply strip_subseq.
Qed.

(** ** [topology_llm_test.py]: reading the reply *)

Section ReplyFacts.
Import Topology.

Lemma seq_index_zero_cons {A : Type} (x : A) (l : list A) :
  seq_index (x :: l) 0 = Some x.
Proof.
  unfold seq_index. cbn [Z.ltb Z.compare Z.leb andb].
  destruct (Z.ltb_spec 0 (Z.of_nat (List.length (x :: l)))) as [_|H];
    [reflexivity|].
  cbn [List.length] in H. lia.
Qed.

Lemma seq_index_zero_nil {A : Type} : @seq_index A [] 0 = None.
Proof. reflexivity. Qed.

(** The four subscripts of line 60, on a decoded reply. *)
Lemma content_of_reply (data c : pyval) :
  and_then (subscript data (KStr "choices")) (fun choices =>
  and_then (subscript choices (KInt 0)) (fun choice =>
  and_then (subscript choice (KStr "message")) (fun message =>
  subscript message (KStr "content")))) = Ok c
  <-> exists d m rest mm,
      data = PDict d
      /\ dict_get d "choices" = Some (PList (PDict m :: rest))
      /\ dict_get m "message" = Some (PDict mm)
      /\ dict_get mm "content" = Some c.
Proof.
  split.
  - destruct data as [| | | | |items|d]; try discriminate. cbn [subscript].
    destruct (dict_get d "choices") as [choices|] eqn:E1; [|discriminate].
    cbn [and_then].
    destruct choices as [| | | |s|items|d']; try discriminate;
      cbn [subscript].
    + destruct (seq_index (list_ascii_of_string s) 0); discriminate.
    + destruct items as [|choice rest];
        [rewrite seq_index_zero_nil; discriminate|].
      rewrite seq_index_zero_cons. cbn [and_then].
      destruct choice as [| | | | |items'|m]; try discriminate.
      cbn [subscript].
      destruct (dict_get m "message") as [message|] eqn:E2; [|discriminate].
      cbn [and_then].
      destruct message as [| | | | |items'|mm]; try discriminate.
      cbn [subscript].
      destruct (dict_get mm "content") as [x|] eqn:E3; [|discriminate].
      intros [= ->]. now exists d, m, rest, mm.
  - intros (d & m & rest & mm & -> & E1 & E2 & E3).
    cbn [subscript]. rewrite E1. cbn [and_then subscript].
    rewrite seq_index_zero_cons. cbn [and_then subscript].
    rewrite E2. cbn [and_then subscript]. now rewrite E3.
Qed.

End ReplyFacts.

(** X13.  [call_groq_llm] of the topology test.  Without a key (unset or
    empty) it returns [None] and posts nothing.  With a key it posts the
    prompt once, and returns a value exactly when the decoded reply is an
    object whose [choices] is a list that starts with an object whose
    [message] is an object with a [content]: that content.  Nothing is
    caught: a reply without [choices] (an error reply) raises [KeyError],
    an empty [choices] raises [IndexError], and what the request raised is
    raised on. *)
Theorem call_groq_llm_reply (H : Topology.HttpBed) (topology_text
    user_intent : string) :
  Topology.call_groq_llm None topology_text user_intent
  = (Topology.Ok Topology.PNone, [])
  /\ Topology.call_groq_llm (Some "") topology_text user_intent
     = (Topology.Ok Topology.PNone, [])
  /\ forall a key,
      let k := String a key in
      let prompt := Topology.build_prompt topology_text user_intent in
      let result :=
        Topology.call_groq_llm (Some k) topology_text user_intent in
      snd result = [prompt]
      /\ (forall c,
            fst result = Topology.Ok c
            <-> exists d m rest mm,
                Topology.post_json k prompt
                = Topology.Ok (Topology.PDict d)
                /\ Topology.dict_get d "choices"
                   = Some (Topology.PList (Topology.PDict m :: rest))
                /\ Topology.dict_get m "message"
                   = Some (Topology.PDict mm)
                /\ Topology.dict_get mm "content" = Some c)
      /\ (forall d,
            Topology.post_json k prompt = Topology.Ok (Topology.PDict d) ->
            Topology.dict_get d "choices" = None ->
            fst result
            = Topology.Raise (Topology.KeyError (Topology.KStr "choices")))
      /\ (forall d,
            Topology.post_json k prompt = Topology.Ok (Topology.PDict d) ->
            Topology.dict_get d "choices" = Some (Topology.PList []) ->
            fst result = Topology.Raise Topology.IndexError)
      /\ (forall e,
            Topology.post_json k prompt = Topology.Raise e ->
            fst result = Topology.Raise e).
Proof.
  split; [reflexivity|]. split; [reflexivity|].
  intros a key k prompt result. subst result k.
  unfold Topology.call_groq_llm. fold prompt. cbn [fst snd].
  split; [reflexivity|]. split; [|split; [|split]].
  - intros c.
    destruct (Topology.post_json (String a key) prompt) as [data|e] eqn:P;
      cbn [Topology.and_then].
    + rewrite content_of_reply. split.
      * intros (d & m & rest & mm & -> & E). now exists d, m, rest, mm.
      * intros (d & m & rest & mm & [= ->] & E). now exists d, m, rest, mm.
    + split; [discriminate|]. intros (d & m & rest & mm & E & _).
      discriminate.
  - intros d P E. rewrite P. cbn [Topology.and_then Topology.subscript].
    now rewrite E.
  - intros d P E. rewrite P. cbn [Topology.and_then Topology.subscript].
    now rewrite E.
  - intros e P. now rewrite P.
Qed.

Lemma call_groq_llm_reply_witness :
  fst (@Topology.call_groq_llm
         (Topology.reply_bed (Topology.chat_reply (Topology.PStr "{}")))
         (Some "gsk") Topology.get_topology_text "Block traffic from h1 to h2")
  = Topology.Ok (Topology.PStr "{}")
  /\ fst (@Topology.call_groq_llm (Topology.reply_bed Topology.error_reply)
            (Some "gsk") Topology.get_topology_text
            "Block traffic from h1 to h2")
     = Topology.Raise (Topology.KeyError (Topology.KStr "choices")).
Proof.
  split.
  - destruct (call_groq_llm_reply
                (Topology.reply_bed (Topology.chat_reply (Topology.PStr "{}")))
                Topology.get_topology_text "Block traffic from h1 to h2")
      as (_ & _ & W).
    destruct (W "g"%char "sk") as (_ & R & _). apply R.
    eexists _, _, _, _. repeat split; reflexivity.
  - destruct (call_groq_llm_reply (Topology.reply_bed Topology.error_reply)
                Topology.get_topology_text "Block traffic from h1 to h2")
      as (_ & _ & W).
    destruct (W "g"%char "sk") as (_ & _ & K & _).
    apply (K [("error",
               Topology.PDict [("message", Topology.PStr "Invalid API Key")])]);
      reflexivity.
Defined.

(** ** The success rate at its two ends *)

Section FloatFacts.

Lemma digits2_pos_bound (p : positive) (n : Z) :
  Zpos p < 2 ^ n -> Zpos (digits2_pos p) <= n.
Proof.
  revert n. induction p as [p IH|p IH|]; intros n H.
  - assert (0 < n) by (destruct n; simpl in H; lia).
    replace n with (Z.succ (n - 1)) in H by lia.
    rewrite Z.pow_succ_r in H by lia.
    cbn [digits2_pos]. specialize (IH (n - 1)). lia.
  - assert (0 < n) by (destruct n; simpl in H; lia).
    replace n with (Z.succ (n - 1)) in H by lia.
    rewrite Z.pow_succ_r in H by lia.
    cbn [digits2_pos]. specialize (IH (n - 1)). lia.
  - cbn [digits2_pos]. destruct n; simpl in H; lia.
Qed.

Lemma digits2_pos_shift (p k : positive) :
  digits2_pos (Pos.iter xO p k) = (digits2_pos p + k)%positive.
Proof.
  induction k as [|k IH] using Pos.peano_ind.
  - simpl. lia.
  - rewrite Pos.iter_succ. cbn [digits2_pos]. rewrite IH. lia.
Qed.

Lemma round_normal (m : positive) (e : Z) :
  digits2_pos m = 53%positive -> -1074 <= e <= 971 ->
  binary_round_aux 53 1024 false (Zpos m) e loc_Exact
  = S754_finite false m e.
Proof.
  intros D He.
  assert (S : forall l, shr_fexp 53 1024 (Zpos m) e l
                        = (shr_record_of_loc (Zpos m) l, e)).
  { intros l. unfold shr_fexp, Zdigits2. rewrite D.
    replace (fexp 53 1024 (53 + e) - e) with 0
      by (unfold fexp, emin; lia).
    reflexivity. }
  unfold binary_round_aux. rewrite S. cbn [shr_record_of_loc shr_m
    loc_of_shr_record round_nearest_even]. rewrite S.
  cbn [shr_record_of_loc shr_m].
  replace (e <=? 1024 - 53) with true by (symmetry; apply Z.leb_le; lia).
  reflexivity.
Qed.

Lemma float_of_pos (p : positive) :
  Zpos p < 2 ^ 53 ->
  exists m e, float_of_int (Zpos p) = S754_finite false m e
              /\ digits2_pos m = 53%positive /\ -52 <= e <= 0.
Proof.
  intros H. apply digits2_pos_bound in H.
  unfold float_of_int, binary_normalize, binary_round, shl_align.
  replace (fexp 53 1024 (Z.pos (digits2_pos p) + 0))
    with (Zpos (digits2_pos p) - 53) by (unfold fexp, emin; lia).
  destruct (Zpos (digits2_pos p) - 53 - 0) as [|k|k] eqn:E; try lia.
  - exists p, 0. rewrite round_normal by lia.
    repeat split; lia.
  - exists (Pos.iter xO p k), (Zpos (digits2_pos p) - 53).
    assert (D : digits2_pos (Pos.iter xO p k) = 53%positive)
      by (rewrite digits2_pos_shift; lia).
    rewrite round_normal by (auto; lia).
    repeat split; auto; lia.
Qed.

Lemma float_div_self (m : positive) (e : Z) :
  digits2_pos m = 53%positive ->
  float_div (S754_finite false m e) (S754_finite false m e)
  = float_of_int 1.
Proof.
  intros D. unfold float_div, SFdiv, SFdiv_core_binary, Zdigits2.
  rewrite D.
  replace (53 + e - (53 + e)) with 0 by lia.
  replace (e - e) with 0 by lia.
  change (IntDef.Z.min (fexp 53 1024 0) 0) with (-53).
  change (0 - -53) with 53. cbv iota.
  change (IntDef.Z.shiftl (Z.pos m) 53) with (Z.shiftl (Z.pos m) 53).
  rewrite Z.shiftl_mul_pow2 by lia.
  pose proof (Z.div_mul (2 ^ 53) (Zpos m)) as Q.
  pose proof (Z.mod_mul (2 ^ 53) (Zpos m)) as R.
  unfold Z.div, Z.modulo in Q, R. rewrite (Z.mul_comm (Zpos m)).
  change IntDef.Z.div_eucl with Z.div_eucl.
  destruct (Z.div_eucl (2 ^ 53 * Z.pos m) (Z.pos m)) as [q r].
  cbn [fst snd] in Q, R.
  specialize (Q ltac:(lia)). specialize (R ltac:(lia)). subst q r.
  unfold new_location.
  destruct (Z.even (Z.pos m)); reflexivity.
Qed.

Lemma float_of_int_100 :
  float_of_int 100 = S754_finite false 7036874417766400 (-46).
Proof. reflexivity. Qed.

Lemma filter_none {A : Type} (f : A -> bool) (l : list A) :
  forallb (fun x => negb (f x)) l = true -> filter f l = [].
Proof.
  induction l as [|x l IH]; [reflexivity|]. cbn [forallb filter].
  intros H. apply andb_true_iff in H as [Hx Hl].
  destruct (f x); [discriminate | auto].
Qed.

Lemma filter_all {A : Type} (f : A -> bool) (l : list A) :
  forallb f l = true -> filter f l = l.
Proof.
  induction l as [|x l IH]; [reflexivity|]. cbn [forallb filter].
  intros H. apply andb_true_iff in H as [Hx Hl].
  rewrite Hx, IH; auto.
Qed.

Lemma success_rate_none (results : list (TestCase * IntentResult)) :
  Z.of_nat (List.length results) < 2 ^ 53 ->
  forallb (fun r => negb (success (snd r))) results = true ->
  success_count results = 0 /\ success_rate results = S754_zero false.
Proof.
  intros Hlen Hall.
  assert (C : success_count results = 0)
    by (now rewrite success_count_filter, filter_none).
  split; [exact C|]. unfold success_rate. rewrite C.
  destruct results as [|r results]; [reflexivity|].
  destruct (Z.of_nat (List.length (r :: results))) as [|p|p] eqn:E;
    [discriminate E | | discriminate E].
  destruct (float_of_pos p Hlen) as (m & e & -> & _). reflexivity.
Qed.

Lemma success_rate_all (results : list (TestCase * IntentResult)) :
  Z.of_nat (List.length results) < 2 ^ 53 ->
  results <> [] ->
  forallb (fun r => success (snd r)) results = true ->
  success_count results = Z.of_nat (List.length results)
  /\ success_rate results = float_of_int 100.
Proof.
  intros Hlen Hne Hall.
  assert (C : success_count results = Z.of_nat (List.length results))
    by (now rewrite success_count_filter, filter_all).
  split; [exact C|]. unfold success_rate. rewrite C.
  destruct results as [|r results]; [now elim Hne|].
  destruct (Z.of_nat (List.length (r :: results))) as [|p|p] eqn:E;
    [discriminate E | | discriminate E].
  destruct (float_of_pos p Hlen) as (m & e & -> & D & _).
  now rewrite float_div_self.
Qed.

End FloatFacts.

(** X14.  The two ends of the summary are exact in binary64 (for a list of
    fewer than 2^53 results): when no result has [success] set the count is
    0 and the rate is [+0.0]; when every result of a non-empty list has it
    set the count is the length and the rate is exactly [100.0]. *)
Theorem success_rate_extremes (results : list (TestCase * IntentResult)) :
  Z.of_nat (List.length results) < 2 ^ 53 ->
  (forallb (fun r => negb (success (snd r))) results = true ->
   success_count results = 0 /\ success_rate results = S754_zero false)
  /\ (results <> [] ->
      forallb (fun r => success (snd r)) results = true ->
      success_count results = Z.of_nat (List.length results)
      /\ success_rate results = float_of_int 100).
Proof.
  intros Hlen. split.
  - now apply success_rate_none.
  - now apply success_rate_all.
Qed.

Lemma success_rate_extremes_witness :
  success_rate
    [({| t_intent := "Allow traffic from h1 to h3"; t_src := "h1";
         t_dst := "h3" |},
      {| success := true; command := Some "iptables -F"; attempts := 1 |});
     ({| t_intent := "Allow traffic from h2 to h3"; t_src := "h2";
         t_dst := "h3" |},
      {| success := true; command := Some "iptables -F"; attempts := 2 |});
     ({| t_intent := "Allow traffic from h1 to h2"; t_src := "h1";
         t_dst := "h2" |},
      {| success := true; command := Some "iptables -F"; attempts := 1 |})]
  = float_of_int 100.
Proof.
  refine (proj2 (proj2 (success_rate_extremes _ _) _ _));
    [reflexivity | discriminate | reflexivity].
Defined.

(** ** A batch of block intents *)

Section BlockBatch.
Context {T : Testbed}.

Lemma run_tests_block (tests : list TestCase) (h : History) :
  Forall (fun t => contains "block" (lower (t_intent t)) = true) tests ->
  Forall (fun r => snd r = {| success := false; command := None;
                              attempts := 3 |})
    (fst (run_tests tests h)).
Proof.
  intros Hb. revert h. induction Hb as [|test rest Ht _ IH]; intros h.
  - constructor.
  - rewrite run_tests_cons.
    pose proof (block_intent_never_verified T (t_intent test) (t_src test)
                  (t_dst test) 3 h Ht) as Hs.
    rewrite process_intent_erase in *.
    destruct (process_intent_log (t_intent test) (t_src test) (t_dst test) 3 h)
      as [[result log] h1] eqn:E.
    cbn [fst snd] in *.
    specialize (IH (snd (node_cmd (t_src test) "iptables -F" h1))).
    destruct (run_tests rest _) as [results h3]. cbn [fst snd] in *.
    constructor; [|exact IH]. cbn [snd].
    destruct (process_intent_shape _ _ _ _ _ _ _ _ E)
      as [(pre & rec & _ & _ & _ & -> & _)|[-> _]];
      [discriminate Hs | reflexivity].
Qed.

Lemma forallb_failed (results : list (TestCase * IntentResult)) :
  Forall (fun r => snd r = {| success := false; command := None;
                              attempts := 3 |}) results ->
  forallb (fun r => negb (success (snd r))) results = true.
Proof.
  induction 1 as [|r results Hr _ IH]; [reflexivity|].
  cbn [forallb]. now rewrite Hr, IH.
Qed.

End BlockBatch.

(** X15.  A batch in which every intent has [block] in it (in any letter
    case) never reports a success, whatever the generator answers and
    whatever the hosts print: each test uses its three attempts and ends with
    no command, the count of successes is 0 and the rate is [+0.0]. *)
Theorem block_batch_reports_zero (T : Testbed) (tests : list TestCase)
    (h : History) :
  Z.of_nat (List.length tests) < 2 ^ 53 ->
  Forall (fun t => contains "block" (lower (t_intent t)) = true) tests ->
  let results := fst (run_tests tests h) in
  Forall (fun r => snd r = {| success := false; command := None;
                              attempts := 3 |}) results
  /\ success_count results = 0
  /\ success_rate results = S754_zero false.
Proof.
  intros Hlen Hb results.
  pose proof (run_tests_block tests h Hb) as Hall. fold results in Hall.
  split; [exact Hall|]. apply success_rate_none.
  - replace (List.length results) with (List.length tests); [exact Hlen|].
    unfold results.
    now rewrite <- (proj1 (run_tests_shape tests h)) at 1; rewrite length_map.
  - now apply forallb_failed.
Qed.

Lemma block_batch_reports_zero_witness :
  success_rate
    (fst (@run_tests blocked_bed
            [{| t_intent := "BLOCK traffic from h1 to h2"; t_src := "h1";
                t_dst := "h2" |}] []))
  = S754_zero false.
Proof.
  refine (proj2 (proj2 (block_batch_reports_zero blocked_bed _ [] _ _)));
    [reflexivity | repeat constructor].
Defined.
